(** * praise-frank-cli: the terminal animation player [run_animation.py]

  A shallow embedding of the colour conversion, the frame renderer and the
  playback loop of [run_animation.py], and the properties of these that the
  specification states.

  Conventions of the embedding.
  - A Python [str] is a [string]; its characters are code points below 256.
    A colour token is also taken as a list of code points of any size
    ([TokenText]), where [hex_to_rgb] is followed over all of Unicode.
  - A Python [int] is a [Z].
  - A raised [ValueError] is the [None] of an [option].
  - A sparse dict keyed by [(row, col)] is a [gmap (Z * Z) string].
  - Terminal output is the list of write calls in program order. *)

From stdpp Require Import gmap.
From Stdlib Require Import ZArith String Ascii List Lia DecimalString.
From Stdlib Require DecimalPos.
Import ListNotations.
Open Scope Z_scope.

(** ** Python string primitives used by the program *)

Module PyStr.

(** Code point of a character. *)
Definition ord (c : ascii) : Z := Z.of_N (N_of_ascii c).

Definition chr1 (c : ascii) : string := String c EmptyString.

Definition LF : ascii := ascii_of_nat 10.
Definition CR : ascii := ascii_of_nat 13.
Definition ESC : ascii := ascii_of_nat 27.

(** [len(s)] as a Python int. *)
Definition len (s : string) : Z := Z.of_nat (String.length s).

(** [s.lstrip(c)] for a one-character argument: every leading [c] goes. *)
Fixpoint lstrip (c : ascii) (s : string) : string :=
  match s with
  | String a rest => if Ascii.eqb a c then lstrip c rest else s
  | EmptyString => EmptyString
  end.

(** [s.rstrip(c)] for a one-character argument. *)
Fixpoint rstrip (c : ascii) (s : string) : string :=
  match s with
  | EmptyString => EmptyString
  | String a rest =>
      match rstrip c rest with
      | EmptyString => if Ascii.eqb a c then EmptyString else chr1 a
      | kept => String a kept
      end
  end.

(** [c * n]: a character repeated; nothing for [n <= 0]. *)
Definition repeat_char (c : ascii) (n : Z) : string :=
  string_of_list_ascii (List.repeat c (Z.to_nat n)).

(** [''.join(ch*2 for ch in s)]. *)
Fixpoint double_chars (s : string) : string :=
  match s with
  | EmptyString => EmptyString
  | String a rest => String a (String a (double_chars rest))
  end.

(** [s[i:j]] for [0 <= i <= j]: lenient at the end of the string. *)
Definition slice (i j : nat) (s : string) : string := substring i (j - i) s.

(** [sep.join(parts)]. *)
Definition join (sep : string) (parts : list string) : string :=
  String.concat sep parts.

(** [str(n)], also what an f-string writes for an int. *)
Definition str_of_int (n : Z) : string := NilZero.string_of_int (Z.to_int n).

(** The characters at which [str.splitlines] breaks a line. *)
Definition is_linebreak (c : ascii) : bool :=
  let n := ord c in
  (n =? 10) || (n =? 11) || (n =? 12) || (n =? 13)
  || (n =? 28) || (n =? 29) || (n =? 30) || (n =? 133).

(** [s.splitlines()]: [cur] holds the current line reversed, [open] tells
    that a line has started since the last break (so that a text ending in
    a break yields no empty last line), and CR LF counts as one break. *)
Fixpoint splitlines_go (s : string) (cur : list ascii) (open : bool)
  : list string :=
  match s with
  | EmptyString =>
      if open then [string_of_list_ascii (rev cur)] else []
  | String c rest =>
      if is_linebreak c then
        string_of_list_ascii (rev cur) ::
          match rest with
          | String c' rest' =>
              if Ascii.eqb c CR && Ascii.eqb c' LF
              then splitlines_go rest' [] false
              else splitlines_go rest [] false
          | EmptyString => []
          end
      else splitlines_go rest (c :: cur) true
  end.

Definition splitlines (s : string) : list string := splitlines_go s [] false.

(** [s.encode('utf-8')] on code points below 256: one byte below 128, two
    bytes from 128 on. *)
Fixpoint encode_utf8 (s : string) : string :=
  match s with
  | EmptyString => EmptyString
  | String c rest =>
      let n := ord c in
      if n <? 128 then String c (encode_utf8 rest)
      else String (ascii_of_N (Z.to_N (192 + n / 64)))
             (String (ascii_of_N (Z.to_N (128 + n mod 64)))
                (encode_utf8 rest))
  end.

End PyStr.

(** ** ColorConverter: [hex_to_rgb] and [rgb_to_ansi256] *)

Module ColorConverter.
Import PyStr.

(** Value of a hexadecimal digit. *)
Definition hex_val (c : ascii) : option Z :=
  let n := ord c in
  if (48 <=? n) && (n <=? 57) then Some (n - 48)
  else if (97 <=? n) && (n <=? 102) then Some (n - 87)
  else if (65 <=? n) && (n <=? 70) then Some (n - 55)
  else None.

Definition is_hex (c : ascii) : bool :=
  match hex_val c with Some _ => true | None => false end.

(** Blanks that [int] strips at either end of its argument. *)
Definition is_int_space (c : ascii) : bool :=
  let n := ord c in
  ((9 <=? n) && (n <=? 13)) || (n =? 32) || (n =? 133) || (n =? 160).

(** [int(s, 16)] on the slices [hex_to_rgb] takes, which hold at most two
    characters.  Python's [int] accepts one or two hex digits, and also a
    single hex digit behind a blank or a sign, or in front of a blank; an
    empty slice, [0x] alone and everything else raise [ValueError].  Longer
    arguments never reach it from [hex_to_rgb] ([slice_length_le]).  This is
    [int] on code points below 256, none of which is a decimal digit of
    another script; [TokenText.int16_text] follows it on all code points,
    and the two agree below 256 ([int16_codes]). *)
Definition int16 (s : string) : option Z :=
  match s with
  | EmptyString => None
  | String a EmptyString => hex_val a
  | String a (String b EmptyString) =>
      match hex_val a, hex_val b with
      | Some x, Some y => Some (16 * x + y)
      | Some x, None => if is_int_space b then Some x else None
      | None, Some y =>
          if is_int_space a then Some y
          else if Ascii.eqb a "+" then Some y
          else if Ascii.eqb a "-" then Some (- y)
          else None
      | None, None => None
      end
  | _ => None
  end.

(** The characters [int] tolerates next to a hex digit, and the digits. *)
Definition tolerated (c : ascii) : bool :=
  is_hex c || is_int_space c || Ascii.eqb c "+" || Ascii.eqb c "-".

(** [hex_to_rgb], lines 47-54. *)
Definition hex_to_rgb (hex_color : string) : option (Z * Z * Z) :=
  let hex_color := lstrip "#" hex_color in
  let hex_color :=
    if len hex_color =? 3 then double_chars hex_color else hex_color in
  match int16 (slice 0 2 hex_color) with
  | None => None
  | Some r =>
      match int16 (slice 2 4 hex_color) with
      | None => None
      | Some g =>
          match int16 (slice 4 6 hex_color) with
          | None => None
          | Some b => Some (r, g, b)
          end
      end
  end.

(** [int(round(p / q))] for [0 < q]: the nearest integer, a tie going to
    the even neighbour.  The program rounds [r / 255 * 5] and
    [(r - 8) / 247 * 24] in floating point; for a channel, the exact
    quotients [5 r / 255] and [24 (r - 8) / 247] are never at a tie (255 and
    247 are odd) and stay further than 1/600 from one, so the float result
    rounds to the same integer. *)
Definition round_div (p q : Z) : Z :=
  let f := p / q in
  let twice := 2 * (p mod q) in
  if twice <? q then f
  else if q <? twice then f + 1
  else if Z.even f then f else f + 1.

(** [rgb_to_ansi256], lines 57-70. *)
Definition rgb_to_ansi256 (r g b : Z) : Z :=
  if (r =? g) && (g =? b) then
    if r <? 8 then 16
    else if 248 <? r then 231
    else 232 + round_div ((r - 8) * 24) 247
  else
    let ri := round_div (r * 5) 255 in
    let gi := round_div (g * 5) 255 in
    let bi := round_div (b * 5) 255 in
    16 + 36 * ri + 6 * gi + bi.

End ColorConverter.

(** ** FrameRenderer: [frame_to_text] and [render_frame_with_colors] *)

Module FrameRenderer.
Import PyStr ColorConverter.

(** A frame of the decoded JSON document: the keys the renderer reads.
    [color_map] is the dict that lines 92-108 build from the JSON text under
    [colors.foreground], keyed by [(row, col)]; the decoding itself is not
    modelled.  A frame with neither text field also stands for the empty
    dict, for which [frame_to_text] returns the empty text as well. *)
Record frame := Frame {
  contentString : option string;
  content : option (list string);
  color_map : gmap (Z * Z) string
}.

(** The [color_mode] argument: ['truecolor'], ['256'], or any other text. *)
Inductive color_mode := Truecolor | Ansi256 | NoColor.

(** What [prev_color] holds at run time: [None], the tuple [(r, g, b)]
    (three ints, or three [None]s for a cell without colour), or a palette
    index. *)
Inductive pyval :=
| PyNone
| PyTuple (rgb : option (Z * Z * Z))
| PyInt (n : Z).

#[global] Instance pyval_eq_dec : EqDecision pyval.
Proof. solve_decision. Defined.

Definition is_not_None (v : pyval) : bool :=
  match v with PyNone => false | _ => true end.

(** [frame_to_text], lines 33-44. *)
Definition frame_to_text (f : frame) : string :=
  match contentString f with
  | Some (String a s) => rstrip LF (String a s)
  | _ =>
      match content f with
      | Some lines => join (chr1 LF) (map (rstrip LF) lines)
      | None => EmptyString
      end
  end.

(** The escape sequences of lines 132, 134 and 147. *)
Definition reset : string := String ESC "[0m".

Definition fg_truecolor (c : Z * Z * Z) : string :=
  let '(r, g, b) := c in
  String ESC "[38;2;" ++ str_of_int r ++ ";" ++ str_of_int g ++ ";"
    ++ str_of_int b ++ "m".

Definition fg_256 (code : Z) : string :=
  String ESC "[38;5;" ++ str_of_int code ++ "m".

(** Lines 120-127: the colour of one cell.  A missing or empty token and a
    token [hex_to_rgb] rejects all give no colour. *)
Definition resolve (cm : gmap (Z * Z) string) (row col : nat)
  : option (Z * Z * Z) :=
  match cm !! (Z.of_nat row, Z.of_nat col) with
  | Some (String a s) => hex_to_rgb (String a s)
  | _ => None
  end.

(** Lines 129-150: what one cell appends to [out], and the new
    [prev_color]. *)
Definition emit_cell (mode : color_mode) (rgb : option (Z * Z * Z))
    (prev_color : pyval) (ch : ascii) : list string * pyval :=
  match mode with
  | Truecolor =>
      if decide (PyTuple rgb = prev_color) then ([chr1 ch], prev_color)
      else
        ((if is_not_None prev_color then [reset] else [])
           ++ match rgb with Some c => [fg_truecolor c] | None => [] end
           ++ [chr1 ch],
         PyTuple rgb)
  | Ansi256 =>
      let code :=
        match rgb with
        | Some (r, g, b) => PyInt (rgb_to_ansi256 r g b)
        | None => PyNone
        end in
      if decide (code = prev_color) then ([chr1 ch], prev_color)
      else
        ((if is_not_None prev_color then [reset] else [])
           ++ match code with PyInt n => [fg_256 n] | _ => [] end
           ++ [chr1 ch],
         code)
  | NoColor => ([chr1 ch], prev_color)
  end.

(** Lines 119-152: the cells of one row from column [col] on, then the
    closing reset. *)
Fixpoint render_cells (mode : color_mode) (cm : gmap (Z * Z) string)
    (row col : nat) (line : string) (prev_color : pyval) : list string :=
  match line with
  | EmptyString => if is_not_None prev_color then [reset] else []
  | String ch rest =>
      let '(pieces, prev') :=
        emit_cell mode (resolve cm row col) prev_color ch in
      pieces ++ render_cells mode cm row (S col) rest prev'
  end.

(** Lines 114-115: pad to width to keep alignment. *)
Definition pad (width : Z) (line : string) : string :=
  if negb (width =? 0) && (len line <? width)
  then line ++ repeat_char " " (width - len line)
  else line.

(** Line 89: the longest line, 0 without lines. *)
Definition max_len (lines : list string) : Z :=
  fold_right (fun l m => Z.max (len l) m) 0 lines.

(** The list [out] of each row, rows numbered from [row] on. *)
Fixpoint render_rows_from (mode : color_mode) (cm : gmap (Z * Z) string)
    (width : Z) (row : nat) (lines : list string) : list (list string) :=
  match lines with
  | [] => []
  | line :: rest =>
      render_cells mode cm row 0 (pad width line) PyNone
        :: render_rows_from mode cm width (S row) rest
  end.

Definition render_rows (f : frame) (width : option Z) (mode : color_mode)
  : list (list string) :=
  let lines := splitlines (frame_to_text f) in
  let width :=
    match width with Some w => w | None => max_len lines end in
  render_rows_from mode (color_map f) width 0 lines.

(** The lines of a frame as the rows are rendered: split and padded. *)
Definition padded_lines (f : frame) (width : option Z) : list string :=
  let lines := splitlines (frame_to_text f) in
  let width :=
    match width with Some w => w | None => max_len lines end in
  map (pad width) lines.

(** The escape that selects colour [c] in a colour mode. *)
Definition fg_escape (mode : color_mode) (c : Z * Z * Z) : string :=
  match mode with
  | Truecolor => fg_truecolor c
  | Ansi256 => let '(r, g, b) := c in fg_256 (rgb_to_ansi256 r g b)
  | NoColor => EmptyString
  end.

(** The value [prev_color] holds while colour [c] is active. *)
Definition active (mode : color_mode) (c : Z * Z * Z) : pyval :=
  match mode with
  | Truecolor => PyTuple (Some c)
  | Ansi256 => let '(r, g, b) := c in PyInt (rgb_to_ansi256 r g b)
  | NoColor => PyNone
  end.

(** The pieces of [out] that are escape sequences: a character is a piece
    of length 1, the escapes are longer. *)
Definition is_escape (piece : string) : bool :=
  (1 <? String.length piece)%nat.

Definition escapes (out : list string) : list string :=
  List.filter is_escape out.

(** The frame without the colour token under key [k]. *)
Definition remove_color (k : Z * Z) (f : frame) : frame :=
  Frame (contentString f) (content f) (delete k (color_map f)).

(** Printable characters: no C0 or C1 control, so neither ESC nor a line
    break. *)
Definition printable (c : ascii) : bool :=
  (32 <=? ord c) && negb ((127 <=? ord c) && (ord c <? 160)).

Definition printable_line (line : string) : bool :=
  forallb printable (list_ascii_of_string line).

(** Number of ESC characters in a text. *)
Fixpoint esc_count (s : string) : nat :=
  match s with
  | EmptyString => O
  | String c rest =>
      if Ascii.eqb c ESC then S (esc_count rest) else esc_count rest
  end.

(** [render_frame_with_colors], lines 85-155. *)
Definition render_frame_with_colors (f : frame) (width : option Z)
    (mode : color_mode) : string :=
  join (chr1 LF) (map (join EmptyString) (render_rows f width mode)).

End FrameRenderer.

(** ** TerminalController: the write calls of lines 158-181 *)

Module Terminal.
Import PyStr.

(** One call on the output stream. *)
Inductive event :=
| StdoutWrite (s : string)
| StdoutFlush
| Print (s : string)
| OsWrite (bytes : string).

Definition CURSOR_HIDE : string := String ESC "[?25l".
Definition CURSOR_SHOW : string := String ESC "[?25h".
Definition CLEAR_HOME : string := String ESC "[2J" ++ String ESC "[H".
Definition HOME : string := String ESC "[H".
Definition ALT_ENTER : string := String ESC "[?1049h".
Definition ALT_EXIT : string := String ESC "[?1049l".

Definition hide_cursor : list event := [StdoutWrite CURSOR_HIDE].
Definition show_cursor : list event := [StdoutWrite CURSOR_SHOW; StdoutFlush].
Definition clear_screen : list event := [StdoutWrite CLEAR_HOME].
Definition enable_alternate_buffer : list event := [StdoutWrite ALT_ENTER].
Definition disable_alternate_buffer : list event := [StdoutWrite ALT_EXIT].

(** How often the text [s] is handed to [sys.stdout.write]. *)
Fixpoint writes_of (s : string) (tr : list event) : nat :=
  match tr with
  | [] => O
  | StdoutWrite s' :: rest =>
      if String.eqb s' s then S (writes_of s rest) else writes_of s rest
  | _ :: rest => writes_of s rest
  end.

(** The payloads of the [os.write] calls, in order. *)
Fixpoint os_writes (tr : list event) : list string :=
  match tr with
  | [] => []
  | OsWrite b :: rest => b :: os_writes rest
  | _ :: rest => os_writes rest
  end.

End Terminal.

(** ** PlaybackScheduler: [play_animation] under the handlers of [main] *)

Module Playback.
Import PyStr FrameRenderer Terminal.

(** The keyword arguments of [play_animation] that decide what is written,
    and the two answers of the capability detection (lines 73-82).
    [forced_color_mode] is [None] or a text, [Some NoColor] standing for
    any text other than ['truecolor'] and ['256'].  Frame durations and
    [fps] only decide how long each sleep lasts and are left out. *)
Record config := Config {
  loop : bool;
  canvas_width : option Z;
  enable_color : bool;
  forced_color_mode : option color_mode;
  prefer_flicker : bool;
  supports_truecolor : bool;
  supports_256color : bool
}.

(** Lines 194-204. *)
Definition choose_color_mode (cfg : config) : color_mode :=
  if enable_color cfg then
    match forced_color_mode cfg with
    | Some Truecolor => Truecolor
    | Some Ansi256 => Ansi256
    | _ =>
        if supports_truecolor cfg then Truecolor
        else if supports_256color cfg then Ansi256
        else NoColor
    end
  else NoColor.

(** Lines 206-209: the text of one frame. *)
Definition frame_text (cfg : config) (f : frame) : string :=
  match choose_color_mode cfg with
  | NoColor => frame_to_text f
  | mode => render_frame_with_colors f (canvas_width cfg) mode
  end.

(** Line 212. *)
Definition encoded_frames (cfg : config) (frames : list frame)
  : list string :=
  map (fun f => encode_utf8 (frame_text cfg f)) frames.

(** The signals a session can receive while it is in the loop. *)
Inductive signal := SIGINT | SIGTERM.

(** Where in an iteration a signal arrives: before the frame is written,
    or during the sleep that follows the write. *)
Inductive phase := BeforeWrite | Sleeping.

Inductive exn := KeyboardInterrupt | SystemExit (code : Z).

(** What the handler of a signal writes, and what it raises: Python's own
    handler of SIGINT raises [KeyboardInterrupt]; [_term_handler], which
    [main] installs for SIGTERM (lines 295-299), shows the cursor and calls
    [sys.exit(0)]. *)
Definition deliver (s : signal) : list event * exn :=
  match s with
  | SIGINT => ([], KeyboardInterrupt)
  | SIGTERM => (show_cursor, SystemExit 0)
  end.

(** How the [while True] loop is left. *)
Inductive loop_exit := Break | Raise (e : exn) | OutOfFuel.

(** How [play_animation] is left, [Running] when the fuel of the model
    ran out with the session still in the loop. *)
Inductive outcome := Returned | Raised (e : exn) | Running.

Section Loop.
Variable cfg : config.
Variable encoded : list string.
(** The signal, if any, that arrives in each iteration of the loop. *)
Variable signals : nat -> option (phase * signal).

Definition frame_count : nat := List.length encoded.

(** Lines 235-241. *)
Definition write_frame (idx : nat) : event :=
  if prefer_flicker cfg
  then OsWrite (CLEAR_HOME ++ nth idx encoded EmptyString)
  else OsWrite (HOME ++ nth idx encoded EmptyString).

(** The bytes of one frame write, by the write strategy. *)
Definition frame_bytes (payload : string) : string :=
  if prefer_flicker cfg then CLEAR_HOME ++ payload else HOME ++ payload.

(** The write of iteration [j] in a session that started at frame 0. *)
Definition frame_of (j : nat) : event := write_frame (j mod frame_count).

(** Lines 233-257: iteration number [it] at frame [idx], and those that
    follow. *)
Fixpoint play_loop (fuel it idx : nat) : list event * loop_exit :=
  match fuel with
  | O => ([], OutOfFuel)
  | S fuel' =>
      match signals it with
      | Some (BeforeWrite, s) =>
          let '(written, e) := deliver s in (written, Raise e)
      | Some (Sleeping, s) =>
          let '(written, e) := deliver s in
          (write_frame idx :: written, Raise e)
      | None =>
          let idx' := S idx in
          if (frame_count <=? idx')%nat then
            if loop cfg then
              let '(tr, r) := play_loop fuel' (S it) O in
              (write_frame idx :: tr, r)
            else ([write_frame idx], Break)
          else
            let '(tr, r) := play_loop fuel' (S it) idx' in
            (write_frame idx :: tr, r)
      end
  end.

(** Lines 221-229: before the loop. *)
Definition setup : list event :=
  hide_cursor
    ++ (if prefer_flicker cfg then []
        else enable_alternate_buffer ++ clear_screen).

(** Lines 261-267: the [finally] block. *)
Definition restore : list event := show_cursor ++ disable_alternate_buffer.

(** Lines 220-267: the [try] statement. *)
Definition play_session (fuel : nat) : list event * outcome :=
  let '(body, r) := play_loop fuel O O in
  match r with
  | OutOfFuel => (setup ++ body, Running)
  | Break => (setup ++ body ++ restore, Returned)
  | Raise KeyboardInterrupt => (setup ++ body ++ restore, Returned)
  | Raise e => (setup ++ body ++ restore, Raised e)
  end.
End Loop.

(** [play_animation], lines 184-267. *)
Definition play_animation (frames : list frame) (cfg : config)
    (signals : nat -> option (phase * signal)) (fuel : nat)
  : list event * outcome :=
  match frames with
  | [] => ([Print "No frames found in animation."%string], Returned)
  | _ :: _ => play_session cfg (encoded_frames cfg frames) signals fuel
  end.

End Playback.

(** ** The specification's reading of a colour token *)

Module Spec.
Import PyStr ColorConverter.

(** "After stripping an optional leading [#]": at most one. *)
Definition strip_optional_hash (s : string) : string :=
  match s with
  | String c rest => if Ascii.eqb c "#" then rest else s
  | EmptyString => EmptyString
  end.

Definition all_hex (s : string) : bool :=
  forallb is_hex (list_ascii_of_string s).

(** The tokens the specification has [hexToRgb] accept, all others being
    rejected: 3 or 6 hex digits behind an optional [#]. *)
Definition well_formed_token (s : string) : bool :=
  let t := strip_optional_hash s in
  ((len t =? 3) || (len t =? 6)) && all_hex t.

(** "Right-padded with spaces to that width". *)
Definition right_pad (width : Z) (line : string) : string :=
  line ++ repeat_char " " (width - len line).

(** "The frame's lines each right-padded with spaces to that width and
    joined with newline separators". *)
Definition padded_text (width : Z) (lines : list string) : string :=
  join (chr1 LF) (map (right_pad width) lines).

End Spec.

(** ** Colour tokens over all of Unicode

    The tokens of a colour map come from JSON text and can hold any code
    point.  Here a token is the list of its code points, and [hex_to_rgb] is
    embedded once more on such lists, [int(s, 16)] being followed through
    the conversion that CPython applies to a non-ASCII argument before it
    parses it. *)

Module TokenText.
Import PyStr ColorConverter.

(** A Python [str] as the list of its code points. *)
Definition text := list Z.

(** The text of a [string]. *)
Definition codes (s : string) : text := map ord (list_ascii_of_string s).

(** [len(t)] as a Python int. *)
Definition len_text (t : text) : Z := Z.of_nat (length t).

(** [t.lstrip('#')]: every leading [#], code point 35, goes. *)
Fixpoint lstrip_hash (t : text) : text :=
  match t with
  | c :: rest => if c =? 35 then lstrip_hash rest else t
  | [] => []
  end.

(** [''.join(ch*2 for ch in t)]. *)
Fixpoint double_codes (t : text) : text :=
  match t with
  | [] => []
  | c :: rest => c :: c :: double_codes rest
  end.

(** [t[i:j]] for [0 <= i <= j]: lenient at the end of the text. *)
Definition slice_text (i j : nat) (t : text) : text :=
  firstn (j - i) (skipn i t).

(** Value of a hexadecimal digit: [0-9], [a-f], [A-F]. *)
Definition hex_value (c : Z) : option Z :=
  if (48 <=? c) && (c <=? 57) then Some (c - 48)
  else if (97 <=? c) && (c <=? 102) then Some (c - 87)
  else if (65 <=? c) && (c <=? 70) then Some (c - 55)
  else None.

Definition is_hex_code (c : Z) : bool :=
  match hex_value c with Some _ => true | None => false end.

(** The blanks the parser of [int] strips: tab to carriage return, and the
    space. *)
Definition ascii_blank (c : Z) : bool :=
  ((9 <=? c) && (c <=? 13)) || (c =? 32).

Section Tables.

(** Two tables of the interpreter's Unicode database, which [int] consults
    for characters from 127 on: the value of a decimal digit (the
    characters of category Nd), and whether a character is a blank. *)
Variable decimal_value : Z -> option Z.
Variable is_blank : Z -> bool.

(** What [int] makes of one character of a non-ASCII argument: a character
    below 127 stays, a blank becomes a space, a decimal digit becomes the
    ASCII digit of its value, and any other character becomes [?], code
    point 63, at which the parser fails. *)
Definition to_ascii (c : Z) : Z :=
  if c <? 127 then c
  else if is_blank c then 32
  else match decimal_value c with
       | Some d => 48 + d
       | None => 63
       end.

Definition ascii_only (t : text) : bool := forallb (fun c => c <? 128) t.

(** An ASCII argument is parsed as it is. *)
Definition transform (t : text) : text :=
  if ascii_only t then t else map to_ascii t.

(** [int(t, 16)] on the slices [hex_to_rgb] takes, which hold at most two
    characters: after the conversion, one or two hex digits, or a single
    hex digit behind a blank or a sign, or in front of a blank; everything
    else raises [ValueError]. *)
Definition int16_text (t : text) : option Z :=
  match transform t with
  | [] => None
  | [a] => hex_value a
  | [a; b] =>
      match hex_value a, hex_value b with
      | Some x, Some y => Some (16 * x + y)
      | Some x, None => if ascii_blank b then Some x else None
      | None, Some y =>
          if ascii_blank a then Some y
          else if a =? 43 then Some y
          else if a =? 45 then Some (- y)
          else None
      | None, None => None
      end
  | _ => None
  end.

(** [hex_to_rgb], lines 47-54, on a token of any code points. *)
Definition hex_to_rgb_text (hex_color : text) : option (Z * Z * Z) :=
  let hex_color := lstrip_hash hex_color in
  let hex_color :=
    if len_text hex_color =? 3 then double_codes hex_color else hex_color in
  match int16_text (slice_text 0 2 hex_color) with
  | None => None
  | Some r =>
      match int16_text (slice_text 2 4 hex_color) with
      | None => None
      | Some g =>
          match int16_text (slice_text 4 6 hex_color) with
          | None => None
          | Some b => Some (r, g, b)
          end
      end
  end.

(** A decimal digit of another script. *)
Definition is_other_digit (c : Z) : bool :=
  (127 <=? c) &&
  match decimal_value c with Some _ => true | None => false end.

(** The characters [int] reads as a digit in base 16. *)
Definition digit_like (c : Z) : bool := is_hex_code c || is_other_digit c.

(** The characters [int] tolerates next to a digit, and the digits. *)
Definition tolerated_code (c : Z) : bool :=
  digit_like c || ascii_blank c || (c =? 43) || (c =? 45)
  || ((127 <=? c) && is_blank c).

End Tables.

(** A fragment of the Unicode database: the Arabic-Indic digits U+0660 to
    U+0669, and the two blanks below 256, U+0085 and U+00A0. *)
Definition arabic_indic_digits (c : Z) : option Z :=
  if (1632 <=? c) && (c <=? 1641) then Some (c - 1632) else None.

Definition latin1_blanks (c : Z) : bool := (c =? 133) || (c =? 160).

End TokenText.

(** ** Notions used to state further properties of the renderer *)

Module RowView.
Import PyStr ColorConverter FrameRenderer.

(** The pieces of a row that are characters of the frame. *)
Definition visible (out : list string) : list string :=
  List.filter (fun piece => negb (is_escape piece)) out.

(** Whether [prev_color] stands for a colour: an RGB triple or a palette
    index, not [None] and not the tuple of three [None]s. *)
Definition is_colour (prev_color : pyval) : bool :=
  match prev_color with
  | PyTuple (Some _) | PyInt _ => true
  | _ => false
  end.

(** A sequence of escapes read from left to right, a colour being active
    or not at its start: a colour escape comes only when no colour is
    active, a reset ends the active colour, and no colour is active at the
    end. *)
Fixpoint closed (active : bool) (es : list string) : bool :=
  match es with
  | [] => negb active
  | e :: rest =>
      if String.eqb e reset then closed false rest
      else negb active && closed true rest
  end.

(** The frame with the colour token [v] under key [k]. *)
Definition set_color (k : Z * Z) (v : string) (f : frame) : frame :=
  Frame (contentString f) (content f) (<[k := v]> (color_map f)).

Definition no_linebreak (line : string) : bool :=
  forallb (fun c => negb (is_linebreak c)) (list_ascii_of_string line).

(** A list of lines without its last line if that one is empty. *)
Fixpoint drop_last_empty (lines : list string) : list string :=
  match lines with
  | [] => []
  | [l] => match l with EmptyString => [] | _ => [l] end
  | l :: rest => l :: drop_last_empty rest
  end.

(** [k] newlines. *)
Definition newlines (k : nat) : string :=
  string_of_list_ascii (List.repeat LF k).

End RowView.

(** ** The colour map of a frame: lines 92-108 of
    [render_frame_with_colors] *)

Module ColourKeys.
Import PyStr ColorConverter FrameRenderer.

(** [s.split(',')]. *)
Fixpoint split_comma_go (s : string) (cur : list ascii) : list string :=
  match s with
  | EmptyString => [string_of_list_ascii (rev cur)]
  | String c rest =>
      if Ascii.eqb c ","
      then string_of_list_ascii (rev cur) :: split_comma_go rest []
      else split_comma_go rest (c :: cur)
  end.

Definition split_comma (s : string) : list string := split_comma_go s [].

Fixpoint lstrip_spaces (s : string) : string :=
  match s with
  | String a rest => if is_int_space a then lstrip_spaces rest else s
  | EmptyString => EmptyString
  end.

Fixpoint rstrip_spaces (s : string) : string :=
  match s with
  | EmptyString => EmptyString
  | String a rest =>
      match rstrip_spaces rest with
      | EmptyString => if is_int_space a then EmptyString else chr1 a
      | kept => String a kept
      end
  end.

Definition digit_val (c : ascii) : option Z :=
  let n := ord c in
  if (48 <=? n) && (n <=? 57) then Some (n - 48) else None.

(** The digits of a numeral, from left to right onto [acc]; an underscore
    may stand between two digits.  [after_digit] tells that the character
    before was a digit. *)
Fixpoint digits_value (s : string) (acc : Z) (after_digit : bool)
  : option Z :=
  match s with
  | EmptyString => if after_digit then Some acc else None
  | String c rest =>
      match digit_val c with
      | Some d => digits_value rest (10 * acc + d) true
      | None =>
          if Ascii.eqb c "_" && after_digit
          then digits_value rest acc false
          else None
      end
  end.

Fixpoint digit_count (s : string) : nat :=
  match s with
  | EmptyString => O
  | String c rest =>
      match digit_val c with
      | Some _ => S (digit_count rest)
      | None => digit_count rest
      end
  end.

(** [int(s)] on a text of code points below 256, as CPython 3.11 reads it:
    blanks around, a sign, digits with single underscores between them, and
    at most 4300 digits (the default of [sys.set_int_max_str_digits];
    versions before 3.11 read longer numerals too).  [None] stands for
    [ValueError]. *)
Definition int10 (s : string) : option Z :=
  let t := rstrip_spaces (lstrip_spaces s) in
  let '(negative, body) :=
    match t with
    | String c rest =>
        if Ascii.eqb c "-" then (true, rest)
        else if Ascii.eqb c "+" then (false, rest)
        else (false, t)
    | EmptyString => (false, t)
    end in
  if (4300 <? digit_count body)%nat then None
  else
    match digits_value body 0 false with
    | Some v => Some (if negative then - v else v)
    | None => None
    end.

(** Lines 100-102: the cell a key of the form [col,row] names; [None] when
    the unpacking or one of the two [int] calls raises. *)
Definition parse_key (key : string) : option (Z * Z) :=
  match split_comma key with
  | [col_s; row_s] =>
      match int10 col_s with
      | None => None
      | Some col =>
          match int10 row_s with
          | None => None
          | Some row => Some (row, col)
          end
      end
  | _ => None
  end.

(** Lines 98-105: the loop over the items of the decoded JSON object, in
    their order.  The decoding of the JSON text is not modelled; a text
    that is no JSON object gives the empty map. *)
Definition build_color_map (items : list (string * string))
  : gmap (Z * Z) string :=
  fold_left
    (fun color_map item =>
       match parse_key (fst item) with
       | Some cell => <[cell := snd item]> color_map
       | None => color_map
       end)
    items ∅.

(** The last item whose key names the cell [cell]. *)
Definition last_for (cell : Z * Z) (items : list (string * string))
  : option string :=
  option_map snd
    (List.find (fun item => bool_decide (parse_key (fst item) = Some cell))
       (rev items)).

Definition comma_count (s : string) : nat :=
  List.length (List.filter (fun c => Ascii.eqb c ",") (list_ascii_of_string s)).

End ColourKeys.

Import PyStr ColorConverter FrameRenderer Terminal Playback Spec RowView.
Import ColourKeys TokenText.

(** * Properties *)

(** ** ColorConverter *)

Section ColorConverterFacts.

Lemma len_eq (s : string) (n : nat) :
  len s = Z.of_nat n -> String.length s = n.
Proof. unfold len. lia. Qed.

Lemma len_nil : len EmptyString = 0.
Proof. reflexivity. Qed.

Lemma len_cons (a : ascii) (s : string) : len (String a s) = 1 + len s.
Proof. unfold len. cbn [String.length]. lia. Qed.

Lemma len_nonneg (s : string) : 0 <= len s.
Proof. unfold len. lia. Qed.

Lemma hex_val_range (c : ascii) (x : Z) :
  hex_val c = Some x -> 0 <= x <= 15.
Proof.
  unfold hex_val.
  repeat case_match; intros [= <-]; lia.
Qed.

Lemma is_hex_val (c : ascii) :
  is_hex c = true -> exists x, hex_val c = Some x /\ 0 <= x <= 15.
Proof.
  unfold is_hex. destruct (hex_val c) as [x|] eqn:E; [|discriminate].
  intros _. exists x. split; [reflexivity|]. eapply hex_val_range, E.
Qed.

Lemma is_hex_false (c : ascii) : is_hex c = false -> hex_val c = None.
Proof. unfold is_hex. destruct (hex_val c); [discriminate|reflexivity]. Qed.

(** Two hex digits read as one byte. *)
Lemma int16_two_digits (a b : ascii) :
  is_hex a = true -> is_hex b = true ->
  exists v, int16 (String a (String b EmptyString)) = Some v /\ 0 <= v <= 255.
Proof.
  intros (x & Hx & Rx)%is_hex_val (y & Hy & Ry)%is_hex_val.
  exists (16 * x + y). cbn. rewrite Hx, Hy. split; [reflexivity|lia].
Qed.

Lemma int16_pair_rejects (a b : ascii) :
  tolerated a = false \/ tolerated b = false ->
  int16 (String a (String b EmptyString)) = None.
Proof.
  unfold tolerated. cbn.
  intros [H|H]; repeat apply orb_false_elim in H as [H ?].
  - rewrite (is_hex_false a) by assumption.
    destruct (hex_val b); [|reflexivity].
    repeat match goal with E : _ = false |- _ => rewrite E; clear E end.
    reflexivity.
  - rewrite (is_hex_false b) by assumption.
    destruct (hex_val a); [|reflexivity].
    repeat match goal with E : _ = false |- _ => try rewrite E; clear E end.
    reflexivity.
Qed.

Lemma int16_doubled (a : ascii) :
  is_hex a = false -> int16 (String a (String a EmptyString)) = None.
Proof. intros H. cbn. rewrite (is_hex_false a H). reflexivity. Qed.

(** The slices of [hex_to_rgb] hold at most two characters. *)
Lemma slice_length_le (i : nat) (s : string) :
  (String.length (slice i (i + 2) s) <= 2)%nat.
Proof.
  unfold slice. replace (i + 2 - i)%nat with 2%nat by lia.
  revert s. induction i as [|i IH]; intros [|a [|b s]]; cbn; try lia.
  - destruct s; cbn; lia.
  - destruct i; cbn; lia.
  - apply (IH (String b s)).
Qed.

Lemma round_div_near (p q : Z) :
  0 < q ->
  2 * q * round_div p q - q <= 2 * p <= 2 * q * round_div p q + q.
Proof.
  intros Hq. unfold round_div.
  pose proof (Z.div_mod p q ltac:(lia)) as E.
  pose proof (Z.mod_pos_bound p q Hq) as B.
  repeat case_match; rewrite ?Z.ltb_lt, ?Z.ltb_ge in *; nia.
Qed.

Lemma round_div_mono (p1 p2 q : Z) :
  0 < q -> p1 <= p2 -> round_div p1 q <= round_div p2 q.
Proof.
  intros Hq Hp. unfold round_div.
  pose proof (Z.div_mod p1 q ltac:(lia)) as E1.
  pose proof (Z.div_mod p2 q ltac:(lia)) as E2.
  pose proof (Z.mod_pos_bound p1 q Hq) as B1.
  pose proof (Z.mod_pos_bound p2 q Hq) as B2.
  pose proof (Z.div_le_mono p1 p2 q Hq Hp) as D.
  destruct (Z.eq_dec (p1 / q) (p2 / q)) as [Heq|Hne].
  - rewrite <- Heq in *.
    repeat case_match; rewrite ?Z.ltb_lt, ?Z.ltb_ge in *; try lia; congruence.
  - repeat case_match; rewrite ?Z.ltb_lt, ?Z.ltb_ge in *; lia.
Qed.

(** A channel level of the colour cube lies in 0..5. *)
Lemma level_range (c : Z) :
  0 <= c <= 255 -> 0 <= round_div (c * 5) 255 <= 5.
Proof.
  intros H. pose proof (round_div_near (c * 5) 255 ltac:(lia)). lia.
Qed.

(** A step of the grey ramp lies in 0..23. *)
Lemma ramp_range (r : Z) :
  8 <= r <= 248 -> 0 <= round_div ((r - 8) * 24) 247 <= 23.
Proof.
  intros H. pose proof (round_div_near ((r - 8) * 24) 247 ltac:(lia)). lia.
Qed.

Lemma grey_branch (r : Z) :
  rgb_to_ansi256 r r r =
    if r <? 8 then 16
    else if 248 <? r then 231
    else 232 + round_div ((r - 8) * 24) 247.
Proof. unfold rgb_to_ansi256. rewrite Z.eqb_refl. reflexivity. Qed.

Lemma all_hex_cons (a : ascii) (s : string) :
  all_hex (String a s) = true -> is_hex a = true /\ all_hex s = true.
Proof. unfold all_hex. cbn. intros H. apply andb_prop in H. exact H. Qed.

Lemma all_tolerated_cons (a : ascii) (s : string) :
  forallb tolerated (list_ascii_of_string (String a s)) = false ->
  tolerated a = false \/ forallb tolerated (list_ascii_of_string s) = false.
Proof. cbn. intros H. apply andb_false_iff in H. exact H. Qed.

Ltac known_len :=
  repeat match goal with
    | |- context [len ?t =? 3] =>
        let v := eval vm_compute in (len t =? 3) in
        change (len t =? 3) with v
    end;
  cbv beta iota; unfold slice; cbn [double_chars Nat.sub]; cbn [substring].

(** On tokens of code points below 256: behind any number of leading [#],
    a token of 3 or 6 hex digits is converted, each channel landing in
    0..255; a token of fewer than 3 characters or of 4 is rejected, and so
    is a token of 3 characters with one that is no hex digit and a token of
    5 characters or more with one among the first six that is neither a hex
    digit, a blank nor a sign. *)
Lemma hex_to_rgb_latin1_accepts_and_rejects (s : string) :
  let t := lstrip "#" s in
  ((len t = 3 \/ len t = 6) -> all_hex t = true ->
     exists r g b, hex_to_rgb s = Some (r, g, b)
       /\ 0 <= r <= 255 /\ 0 <= g <= 255 /\ 0 <= b <= 255)
  /\ (len t < 3 \/ len t = 4 -> hex_to_rgb s = None)
  /\ (len t = 3 -> all_hex t = false -> hex_to_rgb s = None)
  /\ (5 <= len t ->
        forallb tolerated (list_ascii_of_string (slice 0 6 t)) = false ->
        hex_to_rgb s = None).
Proof.
  intros t. unfold hex_to_rgb. fold t. clearbody t.
  repeat split.
  - intros [L|L] H.
    + apply (len_eq t 3) in L.
      destruct t as [|a [|b [|c [|d t]]]]; try discriminate L.
      apply all_hex_cons in H as [Ha H].
      apply all_hex_cons in H as [Hb H].
      apply all_hex_cons in H as [Hc _].
      destruct (int16_two_digits a a Ha Ha) as (r & Er & Rr).
      destruct (int16_two_digits b b Hb Hb) as (g & Eg & Rg).
      destruct (int16_two_digits c c Hc Hc) as (b' & Eb & Rb).
      exists r, g, b'. known_len. rewrite Er, Eg, Eb. auto.
    + apply (len_eq t 6) in L.
      destruct t as [|a [|b [|c [|d [|e [|f [|x t]]]]]]]; try discriminate L.
      apply all_hex_cons in H as [Ha H].
      apply all_hex_cons in H as [Hb H].
      apply all_hex_cons in H as [Hc H].
      apply all_hex_cons in H as [Hd H].
      apply all_hex_cons in H as [He H].
      apply all_hex_cons in H as [Hf _].
      destruct (int16_two_digits a b Ha Hb) as (r & Er & Rr).
      destruct (int16_two_digits c d Hc Hd) as (g & Eg & Rg).
      destruct (int16_two_digits e f He Hf) as (b' & Eb & Rb).
      exists r, g, b'. known_len. rewrite Er, Eg, Eb. auto.
  - intros L.
    destruct t as [|a [|b [|c [|d [|e t]]]]];
      try (exfalso; rewrite ?len_cons, ?len_nil in L;
           try pose proof (len_nonneg t); lia);
      known_len; change (int16 EmptyString) with (@None Z);
      try reflexivity;
      repeat (destruct (int16 (String _ _)); try reflexivity).
  - intros L H. apply (len_eq t 3) in L.
    destruct t as [|a [|b [|c [|d t]]]]; try discriminate L.
    unfold all_hex in H. cbn in H. known_len.
    destruct (is_hex a) eqn:Ha; [|rewrite (int16_doubled a Ha); reflexivity].
    destruct (is_hex b) eqn:Hb;
      [|rewrite (int16_doubled b Hb); case_match; reflexivity].
    destruct (is_hex c) eqn:Hc; [discriminate H|].
    rewrite (int16_doubled c Hc). repeat case_match; reflexivity.
  - intros L H.
    assert ((len t =? 3) = false) as E3 by (apply Z.eqb_neq; lia).
    rewrite E3. clear E3.
    destruct t as [|a [|b [|c [|d [|e t]]]]];
      try (exfalso; rewrite ?len_cons, ?len_nil in L; lia).
    clear L. unfold slice in *. cbn [Nat.sub substring] in *.
    apply all_tolerated_cons in H as [Ha|H];
      [rewrite (int16_pair_rejects a b (or_introl Ha)); reflexivity|].
    apply all_tolerated_cons in H as [Hb|H];
      [rewrite (int16_pair_rejects a b (or_intror Hb)); reflexivity|].
    apply all_tolerated_cons in H as [Hc|H];
      [rewrite (int16_pair_rejects c d (or_introl Hc));
       case_match; reflexivity|].
    apply all_tolerated_cons in H as [Hd|H];
      [rewrite (int16_pair_rejects c d (or_intror Hd));
       case_match; reflexivity|].
    destruct t as [|f t]; cbn [substring] in *.
    + apply all_tolerated_cons in H as [He|H]; [|discriminate H].
      cbn [int16]. rewrite (is_hex_false e); [repeat case_match; reflexivity|].
      unfold tolerated in He. repeat apply orb_false_elim in He as [He ?].
      exact He.
    + assert (substring 0 0 t = EmptyString) as E0 by (destruct t; reflexivity).
      rewrite E0 in *.
      apply all_tolerated_cons in H as [He|H];
        [rewrite (int16_pair_rejects e f (or_introl He));
         repeat case_match; reflexivity|].
      apply all_tolerated_cons in H as [Hf|H];
        [rewrite (int16_pair_rejects e f (or_intror Hf));
         repeat case_match; reflexivity|].
      discriminate H.
Qed.

(** [12345] is no well-formed token, having 5 characters, and
    [hex_to_rgb] converts it, reading [12], [34] and [5]. *)
Lemma hex_to_rgb_accepts_length_5 :
  well_formed_token "12345" = false
  /\ hex_to_rgb "12345" = Some (18, 52, 5).
Proof. split; reflexivity. Qed.

(** More tokens that are not well formed and are converted: characters past
    the sixth are never read, every leading [#] is stripped, and [int]
    takes a sign, which can send a channel below 0. *)
Lemma hex_to_rgb_accepts_more :
  well_formed_token "ff0000ff" = false
  /\ hex_to_rgb "ff0000ff" = Some (255, 0, 0)
  /\ well_formed_token "##fff" = false
  /\ hex_to_rgb "##fff" = Some (255, 255, 255)
  /\ well_formed_token "-1-1-1" = false
  /\ hex_to_rgb "-1-1-1" = Some (-1, -1, -1).
Proof. repeat split; reflexivity. Qed.

(** C3 (as amended): the grey index does not decrease as [r] grows from 0
    to 248; it is 16 at 0 and 231 at 255, and 231 for every [r] above 248,
    which is below the 255 reached at 248. *)
Theorem grey_index_monotone_to_248 :
  (forall r1 r2, 0 <= r1 <= r2 -> r2 <= 248 ->
     rgb_to_ansi256 r1 r1 r1 <= rgb_to_ansi256 r2 r2 r2)
  /\ rgb_to_ansi256 0 0 0 = 16
  /\ rgb_to_ansi256 255 255 255 = 231
  /\ (forall r, 248 < r -> rgb_to_ansi256 r r r = 231)
  /\ rgb_to_ansi256 248 248 248 = 255.
Proof.
  repeat split; try reflexivity.
  - intros r1 r2 H1 H2. rewrite !grey_branch.
    destruct (r1 <? 8) eqn:A1; destruct (r2 <? 8) eqn:A2;
      rewrite ?Z.ltb_lt, ?Z.ltb_ge in *; try lia.
    + replace (248 <? r2) with false by (symmetry; apply Z.ltb_ge; lia).
      pose proof (ramp_range r2 ltac:(lia)). lia.
    + replace (248 <? r1) with false by (symmetry; apply Z.ltb_ge; lia).
      replace (248 <? r2) with false by (symmetry; apply Z.ltb_ge; lia).
      pose proof (round_div_mono ((r1 - 8) * 24) ((r2 - 8) * 24) 247
                    ltac:(lia) ltac:(lia)).
      lia.
  - intros r H. rewrite grey_branch.
    replace (r <? 8) with false by (symmetry; apply Z.ltb_ge; lia).
    replace (248 <? r) with true by (symmetry; apply Z.ltb_lt; lia).
    reflexivity.
Qed.

(** The amended C3 between the greys 8 and 200. *)
Lemma grey_index_monotone_to_248_witness :
  rgb_to_ansi256 8 8 8 <= rgb_to_ansi256 200 200 200.
Proof.
  apply (proj1 grey_index_monotone_to_248 8 200); lia.
Defined.

(** C3 as stated fails between 248 and 249: the index drops from the last
    step of the ramp, 255, to the white of the colour cube, 231. *)
Lemma grey_index_drops_at_249 :
  0 <= 248 <= 249 /\ 249 <= 255
  /\ rgb_to_ansi256 248 248 248 = 255
  /\ rgb_to_ansi256 249 249 249 = 231
  /\ ~ rgb_to_ansi256 248 248 248 <= rgb_to_ansi256 249 249 249.
Proof. repeat split; try reflexivity; try lia. vm_compute. congruence. Qed.

(** C10: every colour of channels in 0..255 gets an index in 16..255. *)
Theorem rgb_to_ansi256_range (r g b : Z) :
  0 <= r <= 255 -> 0 <= g <= 255 -> 0 <= b <= 255 ->
  16 <= rgb_to_ansi256 r g b <= 255.
Proof.
  intros Hr Hg Hb. unfold rgb_to_ansi256.
  destruct ((r =? g) && (g =? b)) eqn:E.
  - destruct (r <? 8) eqn:A; [lia|].
    destruct (248 <? r) eqn:B; [lia|].
    rewrite Z.ltb_ge in A, B.
    pose proof (ramp_range r ltac:(lia)). lia.
  - pose proof (level_range r Hr). pose proof (level_range g Hg).
    pose proof (level_range b Hb). cbv zeta. lia.
Qed.

(** C10 at the colour (18, 52, 86). *)
Lemma rgb_to_ansi256_range_witness : 16 <= rgb_to_ansi256 18 52 86 <= 255.
Proof. apply rgb_to_ansi256_range; lia. Defined.

End ColorConverterFacts.

(** ** ColorConverter on tokens of any code points *)

Section TokenTextFacts.

Variable decimal_value : Z -> option Z.
Variable is_blank : Z -> bool.

Local Abbreviation to_ascii := (TokenText.to_ascii decimal_value is_blank).
Local Abbreviation transform := (TokenText.transform decimal_value is_blank).
Local Abbreviation int16_text := (TokenText.int16_text decimal_value is_blank).
Local Abbreviation hex_to_rgb_text :=
  (TokenText.hex_to_rgb_text decimal_value is_blank).
Local Abbreviation digit_like := (TokenText.digit_like decimal_value).
Local Abbreviation tolerated_code :=
  (TokenText.tolerated_code decimal_value is_blank).

Lemma hex_value_range (c x : Z) :
  hex_value c = Some x -> 0 <= x <= 15 /\ 48 <= c <= 102.
Proof.
  unfold hex_value.
  repeat case_match; intros [= <-]; lia.
Qed.

Lemma is_hex_code_value (c : Z) :
  is_hex_code c = true ->
  exists x, hex_value c = Some x /\ 0 <= x <= 15 /\ c < 128.
Proof.
  unfold is_hex_code. destruct (hex_value c) as [x|] eqn:E; [|discriminate].
  intros _. exists x. pose proof (hex_value_range c x E). repeat split; lia.
Qed.

Lemma is_hex_code_false (c : Z) : is_hex_code c = false -> hex_value c = None.
Proof.
  unfold is_hex_code. destruct (hex_value c); [discriminate|reflexivity].
Qed.

(** Two hex digits read as one byte. *)
Lemma int16_text_two_digits (a b : Z) :
  is_hex_code a = true -> is_hex_code b = true ->
  exists v, int16_text [a; b] = Some v /\ 0 <= v <= 255.
Proof.
  intros (x & Hx & Rx & Ax)%is_hex_code_value
         (y & Hy & Ry & Ay)%is_hex_code_value.
  exists (16 * x + y). unfold TokenText.int16_text, TokenText.transform.
  cbn [ascii_only forallb].
  apply Z.ltb_lt in Ax, Ay. rewrite Ax, Ay. cbn [andb].
  rewrite Hx, Hy. split; [reflexivity|lia].
Qed.

(** A character that is not tolerated stays none of a digit, a blank and a
    sign under the conversion. *)
Lemma not_tolerated_stays (c c' : Z) :
  tolerated_code c = false -> c' = c \/ c' = to_ascii c ->
  hex_value c' = None /\ ascii_blank c' = false
  /\ (c' =? 43) = false /\ (c' =? 45) = false.
Proof.
  unfold TokenText.tolerated_code, TokenText.digit_like,
    TokenText.is_other_digit.
  intros T. repeat apply orb_false_elim in T as [T ?].
  apply is_hex_code_false in T.
  intros E.
  assert (c' = c \/ 127 <= c /\ c' = to_ascii c) as [->| [G ->]].
  { destruct E as [->| ->]; [left; reflexivity|].
    destruct (Z.ltb_spec c 127) as [L|L]; [left|right; split; [lia|]].
    - unfold TokenText.to_ascii. apply Z.ltb_lt in L. rewrite L. reflexivity.
    - reflexivity. }
  - auto.
  - unfold TokenText.to_ascii.
    apply Z.leb_le in G as G'. rewrite G' in *. cbn [andb] in *.
    destruct (Z.ltb_spec c 127); [lia|].
    match goal with E : is_blank c = false |- _ => rewrite E end.
    destruct (decimal_value c); [discriminate|]. repeat split.
Qed.

Lemma int16_text_pair_rejects (a b : Z) :
  tolerated_code a = false \/ tolerated_code b = false ->
  int16_text [a; b] = None.
Proof.
  intros T. unfold TokenText.int16_text, TokenText.transform.
  assert (forall a' b', (a' = a \/ a' = to_ascii a) ->
            (b' = b \/ b' = to_ascii b) ->
            match hex_value a', hex_value b' with
            | Some x, Some y => Some (16 * x + y)
            | Some x, None => if ascii_blank b' then Some x else None
            | None, Some y =>
                if ascii_blank a' then Some y
                else if a' =? 43 then Some y
                else if a' =? 45 then Some (- y)
                else None
            | None, None => None
            end = None) as R.
  { intros a' b' Ea Eb. destruct T as [T|T].
    - destruct (not_tolerated_stays a a' T Ea) as (-> & -> & -> & ->).
      destruct (hex_value b'); reflexivity.
    - destruct (not_tolerated_stays b b' T Eb) as (-> & -> & _).
      destruct (hex_value a'); reflexivity. }
  destruct (ascii_only [a; b]); cbn [map]; apply R; auto.
Qed.

Lemma int16_text_single_rejects (e : Z) :
  tolerated_code e = false -> int16_text [e] = None.
Proof.
  intros T. unfold TokenText.int16_text, TokenText.transform.
  destruct (ascii_only [e]); cbn [map];
    eapply not_tolerated_stays; eauto.
Qed.

Lemma int16_text_doubled (a : Z) :
  digit_like a = false -> int16_text [a; a] = None.
Proof.
  unfold TokenText.digit_like, TokenText.is_other_digit.
  intros T. apply orb_false_elim in T as [T D].
  apply is_hex_code_false in T.
  unfold TokenText.int16_text, TokenText.transform.
  destruct (ascii_only [a; a]) eqn:A; cbn [map].
  - rewrite T. reflexivity.
  - cbn [ascii_only forallb] in A. rewrite andb_true_r, andb_diag in A.
    apply Z.ltb_ge in A.
    unfold TokenText.to_ascii.
    destruct (Z.ltb_spec a 127); [lia|].
    destruct (is_blank a); [reflexivity|].
    destruct (Z.leb_spec 127 a); [|lia]. cbn [andb] in D.
    destruct (decimal_value a); [discriminate|reflexivity].
Qed.

Lemma int16_text_nil : int16_text [] = None.
Proof. reflexivity. Qed.

Lemma len_text_eq (t : text) (n : nat) :
  len_text t = Z.of_nat n -> length t = n.
Proof. unfold len_text. lia. Qed.

Lemma all_tolerated_code_cons (a : Z) (t : text) :
  forallb tolerated_code (a :: t) = false ->
  tolerated_code a = false \/ forallb tolerated_code t = false.
Proof. cbn. intros H. apply andb_false_iff in H. exact H. Qed.

Lemma all_digit_like_cons (a : Z) (t : text) :
  forallb digit_like (a :: t) = false ->
  digit_like a = false \/ forallb digit_like t = false.
Proof. cbn. intros H. apply andb_false_iff in H. exact H. Qed.

Ltac known_len_text :=
  repeat match goal with
    | |- context [len_text ?t =? 3] =>
        let v := eval vm_compute in (len_text t =? 3) in
        change (len_text t =? 3) with v
    end;
  cbv beta iota; unfold slice_text;
  cbn [double_codes Nat.sub firstn skipn].

(** C2 (as amended): behind any number of leading [#], a token of 3 or 6
    hex digits is converted, each channel landing in 0..255; a token of
    fewer than 3 characters or of 4 is rejected, and so is a token of 3
    characters with one that is neither a hex digit nor a decimal digit of
    another script, and a token of 5 characters or more with one among the
    first six that is none of a hex digit, a decimal digit of another
    script, a blank and a sign.  The token holds any code points, and the
    two Unicode tables are arbitrary. *)
Theorem hex_to_rgb_text_accepts_and_rejects (s : text) :
  let t := lstrip_hash s in
  ((len_text t = 3 \/ len_text t = 6) -> forallb is_hex_code t = true ->
     exists r g b, hex_to_rgb_text s = Some (r, g, b)
       /\ 0 <= r <= 255 /\ 0 <= g <= 255 /\ 0 <= b <= 255)
  /\ (len_text t < 3 \/ len_text t = 4 -> hex_to_rgb_text s = None)
  /\ (len_text t = 3 -> forallb digit_like t = false ->
        hex_to_rgb_text s = None)
  /\ (5 <= len_text t ->
        forallb tolerated_code (slice_text 0 6 t) = false ->
        hex_to_rgb_text s = None).
Proof.
  intros t. unfold TokenText.hex_to_rgb_text. fold t. clearbody t.
  repeat split.
  - intros [L|L] H.
    + apply (len_text_eq t 3) in L.
      destruct t as [|a [|b [|c [|d t]]]]; try discriminate L.
      cbn [forallb] in H.
      apply andb_prop in H as [Ha H].
      apply andb_prop in H as [Hb H].
      apply andb_prop in H as [Hc _].
      destruct (int16_text_two_digits a a Ha Ha) as (r & Er & Rr).
      destruct (int16_text_two_digits b b Hb Hb) as (g & Eg & Rg).
      destruct (int16_text_two_digits c c Hc Hc) as (b' & Eb & Rb).
      exists r, g, b'. known_len_text. rewrite Er, Eg, Eb. auto.
    + apply (len_text_eq t 6) in L.
      destruct t as [|a [|b [|c [|d [|e [|f [|x t]]]]]]]; try discriminate L.
      cbn [forallb] in H.
      apply andb_prop in H as [Ha H].
      apply andb_prop in H as [Hb H].
      apply andb_prop in H as [Hc H].
      apply andb_prop in H as [Hd H].
      apply andb_prop in H as [He H].
      apply andb_prop in H as [Hf _].
      destruct (int16_text_two_digits a b Ha Hb) as (r & Er & Rr).
      destruct (int16_text_two_digits c d Hc Hd) as (g & Eg & Rg).
      destruct (int16_text_two_digits e f He Hf) as (b' & Eb & Rb).
      exists r, g, b'. known_len_text. rewrite Er, Eg, Eb. auto.
  - intros L.
    destruct t as [|a [|b [|c [|d [|e t]]]]];
      try (exfalso; unfold len_text in L; cbn [length] in L; lia);
      known_len_text; rewrite ?int16_text_nil;
      try reflexivity;
      repeat (destruct (int16_text (_ :: _)); try reflexivity).
  - intros L H. apply (len_text_eq t 3) in L.
    destruct t as [|a [|b [|c [|d t]]]]; try discriminate L.
    known_len_text.
    apply all_digit_like_cons in H as [Ha|H];
      [rewrite (int16_text_doubled a Ha); reflexivity|].
    apply all_digit_like_cons in H as [Hb|H];
      [rewrite (int16_text_doubled b Hb); case_match; reflexivity|].
    apply all_digit_like_cons in H as [Hc|H]; [|discriminate H].
    rewrite (int16_text_doubled c Hc). repeat case_match; reflexivity.
  - intros L H.
    assert ((len_text t =? 3) = false) as E3 by (apply Z.eqb_neq; lia).
    rewrite E3. clear E3.
    destruct t as [|a [|b [|c [|d [|e t]]]]];
      try (exfalso; unfold len_text in L; cbn [length] in L; lia).
    clear L. unfold slice_text in *. cbn [Nat.sub firstn skipn] in *.
    apply all_tolerated_code_cons in H as [Ha|H];
      [rewrite (int16_text_pair_rejects a b (or_introl Ha)); reflexivity|].
    apply all_tolerated_code_cons in H as [Hb|H];
      [rewrite (int16_text_pair_rejects a b (or_intror Hb)); reflexivity|].
    apply all_tolerated_code_cons in H as [Hc|H];
      [rewrite (int16_text_pair_rejects c d (or_introl Hc));
       case_match; reflexivity|].
    apply all_tolerated_code_cons in H as [Hd|H];
      [rewrite (int16_text_pair_rejects c d (or_intror Hd));
       case_match; reflexivity|].
    destruct t as [|f t]; cbn [firstn] in *.
    + apply all_tolerated_code_cons in H as [He|H]; [|discriminate H].
      rewrite (int16_text_single_rejects e He).
      repeat case_match; reflexivity.
    + change (firstn 0 t) with (@nil Z) in *.
      apply all_tolerated_code_cons in H as [He|H];
        [rewrite (int16_text_pair_rejects e f (or_introl He));
         repeat case_match; reflexivity|].
      apply all_tolerated_code_cons in H as [Hf|H];
        [rewrite (int16_text_pair_rejects e f (or_intror Hf));
         repeat case_match; reflexivity|].
      discriminate H.
Qed.

End TokenTextFacts.

(** The amended C2 with the digits U+0660 to U+0669 in the table, at the
    tokens [#0af] (accepted), [abcd] (rejected for its length), [f], U+00E9,
    [f] (rejected for a character that is no digit) and [ff00], U+FF5A,
    U+FF5A (rejected for a character that is not tolerated). *)
Lemma hex_to_rgb_text_accepts_and_rejects_witness :
  (exists r g b,
     hex_to_rgb_text arabic_indic_digits latin1_blanks (codes "#0af")
       = Some (r, g, b)
     /\ 0 <= r <= 255 /\ 0 <= g <= 255 /\ 0 <= b <= 255)
  /\ hex_to_rgb_text arabic_indic_digits latin1_blanks (codes "abcd") = None
  /\ hex_to_rgb_text arabic_indic_digits latin1_blanks [102; 233; 102] = None
  /\ hex_to_rgb_text arabic_indic_digits latin1_blanks
       [102; 102; 48; 48; 65370; 65370] = None.
Proof.
  split; [|split; [|split]].
  - apply (proj1 (hex_to_rgb_text_accepts_and_rejects
                    arabic_indic_digits latin1_blanks (codes "#0af")));
      [left; reflexivity | reflexivity].
  - apply (proj1 (proj2 (hex_to_rgb_text_accepts_and_rejects
                           arabic_indic_digits latin1_blanks (codes "abcd")))).
    right; reflexivity.
  - apply (proj1 (proj2 (proj2 (hex_to_rgb_text_accepts_and_rejects
                                  arabic_indic_digits latin1_blanks
                                  [102; 233; 102]))));
      reflexivity.
  - apply (proj2 (proj2 (proj2 (hex_to_rgb_text_accepts_and_rejects
                                  arabic_indic_digits latin1_blanks
                                  [102; 102; 48; 48; 65370; 65370]))));
      [vm_compute; discriminate | reflexivity].
Defined.

(** C2 as stated fails: [12345] is no well-formed token, having 5
    characters, and [hex_to_rgb] converts it, reading [12], [34] and [5],
    whatever the Unicode tables hold. *)
Lemma hex_to_rgb_text_accepts_length_5 :
  well_formed_token "12345" = false
  /\ forall decimal_value is_blank,
       hex_to_rgb_text decimal_value is_blank (codes "12345")
         = Some (18, 52, 5).
Proof. split; [reflexivity | intros; reflexivity]. Qed.

(** A token of decimal digits of another script is converted too: three
    times U+0661, the Arabic-Indic digit one, give 17 on each channel. *)
Lemma hex_to_rgb_text_reads_other_digits :
  forallb is_hex_code [1633; 1633; 1633] = false
  /\ hex_to_rgb_text arabic_indic_digits latin1_blanks [1633; 1633; 1633]
       = Some (17, 17, 17).
Proof. split; reflexivity. Qed.

(** ** The two embeddings of [hex_to_rgb] agree below 256 *)

Section Latin1.

Variable decimal_value : Z -> option Z.
Variable is_blank : Z -> bool.

(** What the Unicode database holds from 127 to 255: no decimal digit, and
    the blanks U+0085 and U+00A0. *)
Hypothesis no_digit_below_256 :
  forall c, 127 <= c < 256 -> decimal_value c = None.
Hypothesis blanks_below_256 :
  forall c, 127 <= c < 256 -> is_blank c = latin1_blanks c.

Local Abbreviation to_ascii := (TokenText.to_ascii decimal_value is_blank).
Local Abbreviation int16_text := (TokenText.int16_text decimal_value is_blank).
Local Abbreviation hex_to_rgb_text :=
  (TokenText.hex_to_rgb_text decimal_value is_blank).

Lemma ord_range (a : ascii) : 0 <= ord a < 256.
Proof. unfold ord. pose proof (N_ascii_bounded a). lia. Qed.

Lemma ord_inj (a b : ascii) : ord a = ord b -> a = b.
Proof.
  unfold ord. intros H. apply N2Z.inj in H.
  rewrite <- (ascii_N_embedding a), <- (ascii_N_embedding b), H.
  reflexivity.
Qed.

Lemma eqb_ord (a b : ascii) : Ascii.eqb a b = (ord a =? ord b).
Proof.
  destruct (Ascii.eqb_spec a b) as [->|N].
  - symmetry. apply Z.eqb_refl.
  - symmetry. apply Z.eqb_neq. intros E. apply N, ord_inj, E.
Qed.

Lemma codes_cons (a : ascii) (s : string) :
  codes (String a s) = ord a :: codes s.
Proof. reflexivity. Qed.

Lemma codes_lstrip (s : string) :
  codes (lstrip "#" s) = lstrip_hash (codes s).
Proof.
  induction s as [|a s IH]; [reflexivity|].
  cbn [lstrip]. rewrite codes_cons. cbn [lstrip_hash].
  rewrite eqb_ord. change (ord "#") with 35.
  destruct (ord a =? 35); [exact IH | reflexivity].
Qed.

Lemma codes_double (s : string) :
  codes (double_chars s) = double_codes (codes s).
Proof.
  induction s as [|a s IH]; [reflexivity|].
  cbn [double_chars]. rewrite !codes_cons. cbn [double_codes].
  rewrite IH. reflexivity.
Qed.

Lemma codes_len (s : string) : len_text (codes s) = len s.
Proof.
  unfold len_text, len. f_equal.
  induction s as [|a s IH]; [reflexivity|].
  rewrite codes_cons. cbn [length String.length]. rewrite IH. reflexivity.
Qed.

Lemma codes_substring (i n : nat) (s : string) :
  codes (substring i n s) = firstn n (skipn i (codes s)).
Proof.
  revert i n. induction s as [|a s IH]; intros [|i] [|n]; try reflexivity.
  - cbn [substring]. rewrite !codes_cons. cbn [skipn firstn].
    rewrite (IH 0%nat n). reflexivity.
  - cbn [substring]. rewrite codes_cons. cbn [skipn]. apply IH.
  - cbn [substring]. rewrite codes_cons. cbn [skipn]. apply IH.
Qed.

Lemma codes_slice (i j : nat) (s : string) :
  codes (slice i j s) = slice_text i j (codes s).
Proof. apply codes_substring. Qed.

(** One character below 256 under the conversion of [int], or as it is in
    an ASCII argument: the same digit, and a blank or a sign when the
    character is one. *)
Lemma latin1_char (a : ascii) (c' : Z) :
  (c' = ord a /\ ord a < 128) \/ c' = to_ascii (ord a) ->
  hex_value c' = hex_val a
  /\ ascii_blank c' = is_int_space a
  /\ (c' =? 43) = Ascii.eqb a "+"
  /\ (c' =? 45) = Ascii.eqb a "-".
Proof.
  intros E. rewrite !eqb_ord.
  change (ord "+") with 43. change (ord "-") with 45.
  unfold hex_val, is_int_space. cbv zeta.
  pose proof (ord_range a) as R. set (c := ord a) in *. clearbody c.
  assert ((c' = c /\ c < 128) \/ (127 <= c /\ c' = to_ascii c))
    as [[-> L]|[G ->]].
  { destruct E as [E| ->]; [left; exact E|].
    destruct (Z.ltb_spec c 127) as [L|L]; [left|right; split; [lia|]].
    - unfold TokenText.to_ascii. apply Z.ltb_lt in L as L'. rewrite L'.
      split; [reflexivity|lia].
    - reflexivity. }
  - assert ((c =? 133) = false) as -> by (apply Z.eqb_neq; lia).
    assert ((c =? 160) = false) as -> by (apply Z.eqb_neq; lia).
    rewrite !orb_false_r. repeat split.
  - unfold TokenText.to_ascii.
    destruct (Z.ltb_spec c 127); [lia|].
    rewrite (no_digit_below_256 c), (blanks_below_256 c) by lia.
    unfold latin1_blanks, hex_value, ascii_blank.
    assert ((48 <=? c) && (c <=? 57) = false) as ->
      by (apply andb_false_iff; right; apply Z.leb_gt; lia).
    assert ((97 <=? c) && (c <=? 102) = false) as ->
      by (apply andb_false_iff; right; apply Z.leb_gt; lia).
    assert ((65 <=? c) && (c <=? 70) = false) as ->
      by (apply andb_false_iff; right; apply Z.leb_gt; lia).
    assert ((9 <=? c) && (c <=? 13) = false) as ->
      by (apply andb_false_iff; right; apply Z.leb_gt; lia).
    assert ((c =? 32) = false) as -> by (apply Z.eqb_neq; lia).
    assert ((c =? 43) = false) as -> by (apply Z.eqb_neq; lia).
    assert ((c =? 45) = false) as -> by (apply Z.eqb_neq; lia).
    destruct (c =? 133), (c =? 160); repeat split.
Qed.

(** [int(s, 16)] is the same in both embeddings. *)
Lemma int16_codes (s : string) : int16_text (codes s) = int16 s.
Proof.
  unfold TokenText.int16_text, TokenText.transform.
  destruct s as [|a [|b [|c s]]].
  - reflexivity.
  - rewrite codes_cons. change (codes EmptyString) with (@nil Z).
    cbn [ascii_only forallb map int16].
    destruct (Z.ltb_spec (ord a) 128); cbn [andb];
      eapply latin1_char; eauto.
  - rewrite !codes_cons. change (codes EmptyString) with (@nil Z).
    cbn [ascii_only forallb map int16].
    destruct (Z.ltb_spec (ord a) 128) as [La|La]; cbn [andb];
      [destruct (Z.ltb_spec (ord b) 128) as [Lb|Lb]; cbn [andb]|].
    + destruct (latin1_char a (ord a)) as (-> & -> & -> & ->); [auto|].
      destruct (latin1_char b (ord b)) as (-> & -> & _); [auto|].
      reflexivity.
    + destruct (latin1_char a (to_ascii (ord a))) as (-> & -> & -> & ->);
        [auto|].
      destruct (latin1_char b (to_ascii (ord b))) as (-> & -> & _); [auto|].
      reflexivity.
    + destruct (latin1_char a (to_ascii (ord a))) as (-> & -> & -> & ->);
        [auto|].
      destruct (latin1_char b (to_ascii (ord b))) as (-> & -> & _); [auto|].
      reflexivity.
  - rewrite !codes_cons. cbn [int16].
    destruct (ascii_only _); reflexivity.
Qed.

(** On a token of code points below 256, [hex_to_rgb_text] is the
    [hex_to_rgb] of the other sections. *)
Lemma hex_to_rgb_codes (s : string) :
  hex_to_rgb_text (codes s) = hex_to_rgb s.
Proof.
  unfold TokenText.hex_to_rgb_text, hex_to_rgb.
  rewrite <- codes_lstrip, codes_len.
  destruct (len (lstrip "#" s) =? 3).
  - rewrite <- codes_double, <- !codes_slice, !int16_codes. reflexivity.
  - rewrite <- !codes_slice, !int16_codes. reflexivity.
Qed.

End Latin1.

(** ** FrameRenderer *)

Section FrameRendererFacts.

Local Open Scope string_scope.
Local Open Scope list_scope.

(** C5, on the code: with [AB], the cell (0, 0) coloured [#ff0000],
    truecolor and width 2, the row is the colour escape, [A], a reset, [B]
    and one more reset: [prev_color] then holds the tuple of three [None]s,
    which is not [None].  The specification ends the row at [B]. *)
Theorem truecolor_AB_ends_with_reset :
  render_frame_with_colors
    (Frame None (Some ["AB"]) {[ (0, 0) := "#ff0000" ]}) (Some 2) Truecolor
  = (String ESC "[38;2;255;0;0mA" ++ String ESC "[0mB"
       ++ String ESC "[0m")%string
  /\ render_frame_with_colors
       (Frame None (Some ["AB"]) {[ (0, 0) := "#ff0000" ]}) (Some 2)
       Truecolor
     <> (String ESC "[38;2;255;0;0mA" ++ String ESC "[0mB")%string.
Proof. split; [reflexivity | vm_compute; congruence]. Qed.

(** The 256-colour branch on the same frame ends the row at [B]. *)
Lemma ansi256_AB_ends_at_B :
  render_frame_with_colors
    (Frame None (Some ["AB"]) {[ (0, 0) := "#ff0000" ]}) (Some 2) Ansi256
  = (String ESC "[38;5;196mA" ++ String ESC "[0mB")%string.
Proof. reflexivity. Qed.

(** Rendering reads the colour map through [resolve] only. *)
Lemma render_cells_ext (mode : color_mode) (cm cm' : gmap (Z * Z) string)
    (row : nat) (line : string) :
  (forall col, resolve cm row col = resolve cm' row col) ->
  forall col prev,
    render_cells mode cm row col line prev
    = render_cells mode cm' row col line prev.
Proof.
  intros E. induction line as [|ch rest IH]; intros col prev; cbn.
  - reflexivity.
  - rewrite E. destruct (emit_cell _ _ _ _) as [pieces prev'].
    rewrite IH. reflexivity.
Qed.

Lemma render_rows_from_ext (mode : color_mode) (cm cm' : gmap (Z * Z) string)
    (width : Z) (lines : list string) :
  (forall row col, resolve cm row col = resolve cm' row col) ->
  forall row,
    render_rows_from mode cm width row lines
    = render_rows_from mode cm' width row lines.
Proof.
  intros E. induction lines as [|line rest IH]; intros row; cbn.
  - reflexivity.
  - rewrite IH. f_equal. apply render_cells_ext. intros col. apply E.
Qed.

Lemma resolve_malformed (cm : gmap (Z * Z) string) (k : Z * Z)
    (token : string) :
  hex_to_rgb token = None -> cm !! k = Some token ->
  forall row col, resolve cm row col = resolve (delete k cm) row col.
Proof.
  intros Hbad Hk row col. unfold resolve.
  destruct (decide (k = (Z.of_nat row, Z.of_nat col))) as [->|Hne].
  - rewrite lookup_delete_eq, Hk. destruct token; [reflexivity|exact Hbad].
  - rewrite lookup_delete_ne by exact Hne. reflexivity.
Qed.

(** C9: a cell whose token [hex_to_rgb] rejects resolves to no colour and
    has its character written behind at most a reset, never behind a
    colour escape; the frame is rendered, and is rendered as it is without
    that token, all other cells keeping their colours. *)
Theorem malformed_token_renders_uncolored (f : frame) (width : option Z)
    (mode : color_mode) (k : Z * Z) (token : string) :
  hex_to_rgb token = None ->
  color_map f !! k = Some token ->
  (forall row col, k = (Z.of_nat row, Z.of_nat col) ->
     resolve (color_map f) row col = None
     /\ forall prev ch,
          fst (emit_cell mode (resolve (color_map f) row col) prev ch)
            = [chr1 ch]
          \/ fst (emit_cell mode (resolve (color_map f) row col) prev ch)
               = [reset; chr1 ch])
  /\ (forall row col, k <> (Z.of_nat row, Z.of_nat col) ->
       resolve (color_map f) row col
       = resolve (color_map (remove_color k f)) row col)
  /\ render_frame_with_colors f width mode
     = render_frame_with_colors (remove_color k f) width mode.
Proof.
  intros Hbad Hk. split; [|split].
  - intros row col ->.
    assert (resolve (color_map f) row col = None) as R.
    { unfold resolve. rewrite Hk. destruct token; [reflexivity|exact Hbad]. }
    split; [exact R|]. intros prev ch. rewrite R.
    destruct mode; cbn; repeat case_decide; destruct prev; cbn; auto;
      congruence.
  - intros row col _. apply (resolve_malformed _ k token Hbad Hk).
  - unfold render_frame_with_colors, render_rows. cbn [remove_color
      color_map contentString content frame_to_text].
    f_equal. f_equal.
    change (frame_to_text (remove_color k f)) with (frame_to_text f).
    apply render_rows_from_ext, (resolve_malformed _ k token Hbad Hk).
Qed.

(** C9 at the frame [AB] whose first cell carries the token [#ggg]. *)
Lemma malformed_token_renders_uncolored_witness :
  render_frame_with_colors
    (Frame None (Some ["AB"]) {[ (0, 0) := "#ggg" ]}) (Some 2) Ansi256
  = render_frame_with_colors
      (remove_color (0, 0)
         (Frame None (Some ["AB"]) {[ (0, 0) := "#ggg" ]}))
      (Some 2) Ansi256.
Proof.
  apply (malformed_token_renders_uncolored
           (Frame None (Some ["AB"]) {[ (0, 0) := "#ggg" ]}) (Some 2)
           Ansi256 (0, 0) "#ggg"); reflexivity.
Defined.

Lemma join_chars (line : string) :
  join EmptyString (map chr1 (list_ascii_of_string line)) = line.
Proof.
  unfold join. induction line as [|a rest IH]; [reflexivity|].
  cbn [list_ascii_of_string map String.concat].
  destruct (map chr1 (list_ascii_of_string rest)) eqn:E.
  - destruct rest; [reflexivity|discriminate E].
  - rewrite IH. reflexivity.
Qed.

Lemma escapes_chars (l : list ascii) : escapes (map chr1 l) = [].
Proof. induction l as [|a l IH]; [reflexivity|exact IH]. Qed.

Lemma escapes_app (out1 out2 : list string) :
  escapes (out1 ++ out2) = escapes out1 ++ escapes out2.
Proof. apply List.filter_app. Qed.

Lemma is_escape_fg (mode : color_mode) (c : Z * Z * Z) :
  mode <> NoColor -> is_escape (fg_escape mode c) = true.
Proof. destruct mode, c as [[r g] b]; [reflexivity..|congruence]. Qed.

(** Inside a run of colour [c] a cell adds its character only. *)
Lemma emit_cell_same (mode : color_mode) (c : Z * Z * Z) (ch : ascii) :
  emit_cell mode (Some c) (active mode c) ch = ([chr1 ch], active mode c).
Proof.
  destruct mode, c as [[r g] b]; cbn; try reflexivity;
    case_decide; congruence.
Qed.

(** The first cell of a run opens it with one colour escape. *)
Lemma emit_cell_first (mode : color_mode) (c : Z * Z * Z) (ch : ascii) :
  mode <> NoColor ->
  emit_cell mode (Some c) PyNone ch
  = ([fg_escape mode c; chr1 ch], active mode c).
Proof.
  intros Hm. destruct mode, c as [[r g] b]; cbn; try congruence;
    case_decide; congruence.
Qed.

Lemma render_cells_run (mode : color_mode) (cm : gmap (Z * Z) string)
    (row : nat) (c : Z * Z * Z) (line : string) :
  mode <> NoColor ->
  forall col,
    (forall k, (k < String.length line)%nat ->
       resolve cm row (col + k) = Some c) ->
    render_cells mode cm row col line (active mode c)
    = map chr1 (list_ascii_of_string line) ++ [reset].
Proof.
  intros Hm. induction line as [|ch rest IH]; intros col Hc.
  - cbn. destruct mode, c as [[r g] b]; cbn; congruence.
  - cbn [render_cells list_ascii_of_string map].
    pose proof (Hc O ltac:(cbn; lia)) as H0.
    rewrite Nat.add_0_r in H0. rewrite H0, emit_cell_same.
    rewrite (IH (S col)); [reflexivity|].
    intros k Hk. rewrite Nat.add_succ_l, <- Nat.add_succ_r.
    apply Hc. cbn. lia.
Qed.

Lemma render_rows_from_lookup (mode : color_mode)
    (cm : gmap (Z * Z) string) (width : Z) (lines : list string) :
  forall row i line,
    map (pad width) lines !! i = Some line ->
    render_rows_from mode cm width row lines !! i
    = Some (render_cells mode cm (row + i) 0 line PyNone).
Proof.
  induction lines as [|l rest IH]; intros row i line H; [discriminate H|].
  destruct i as [|i].
  - cbn in H. injection H as <-. cbn. rewrite Nat.add_0_r. reflexivity.
  - replace (row + S i)%nat with (S row + i)%nat by lia.
    exact (IH (S row) i line H).
Qed.

(** C6: in a colour mode, a row with at least one cell whose cells all
    resolve to one colour is written as one colour escape, the characters
    of the row, and one reset; these two are its only escapes. *)
Theorem uniform_row_one_escape_pair (f : frame) (width : option Z)
    (mode : color_mode) (i : nat) (line : string) (c : Z * Z * Z) :
  mode <> NoColor ->
  padded_lines f width !! i = Some line ->
  line <> EmptyString ->
  (forall col, (col < String.length line)%nat ->
     resolve (color_map f) i col = Some c) ->
  exists out,
    render_rows f width mode !! i = Some out
    /\ out = [fg_escape mode c] ++ map chr1 (list_ascii_of_string line)
               ++ [reset]
    /\ escapes out = [fg_escape mode c; reset].
Proof.
  intros Hm Hline Hne Hc.
  destruct line as [|ch rest]; [congruence|].
  exists ([fg_escape mode c] ++ map chr1 (list_ascii_of_string (String ch rest))
            ++ [reset]).
  split; [|split; [reflexivity|]].
  - unfold render_rows. unfold padded_lines in Hline.
    rewrite (render_rows_from_lookup _ _ _ _ O i _ Hline).
    f_equal. cbn [Nat.add render_cells].
    rewrite (Hc O ltac:(cbn; lia)), (emit_cell_first _ _ _ Hm).
    rewrite (render_cells_run mode _ i c rest Hm 1%nat); [reflexivity|].
    intros k Hk. apply Hc. cbn. lia.
  - rewrite !escapes_app, escapes_chars.
    unfold escapes. cbn [List.filter].
    rewrite (is_escape_fg _ _ Hm). reflexivity.
Qed.

(** C6 at the frame [AB] with both cells red, in truecolor. *)
Lemma uniform_row_one_escape_pair_witness :
  exists out,
    render_rows
      (Frame None (Some ["AB"])
         (<[ (0, 0) := "#f00" ]> {[ (0, 1) := "#ff0000" ]}))
      (Some 2) Truecolor !! O = Some out
    /\ out = [fg_escape Truecolor (255, 0, 0)]
               ++ map chr1 (list_ascii_of_string "AB") ++ [reset]
    /\ escapes out = [fg_escape Truecolor (255, 0, 0); reset].
Proof.
  apply (uniform_row_one_escape_pair
           (Frame None (Some ["AB"])
              (<[ (0, 0) := "#f00" ]> {[ (0, 1) := "#ff0000" ]}))
           (Some 2) Truecolor O "AB" (255, 0, 0)).
  - discriminate.
  - reflexivity.
  - discriminate.
  - intros [|[|col]] H; [reflexivity | reflexivity | cbn in H; lia].
Defined.

Lemma printable_not_LF (a : ascii) :
  printable a = true -> Ascii.eqb a LF = false.
Proof.
  intros H. destruct (Ascii.eqb_spec a LF) as [->|]; [|reflexivity].
  discriminate H.
Qed.

Lemma printable_not_ESC (a : ascii) :
  printable a = true -> Ascii.eqb a ESC = false.
Proof.
  intros H. destruct (Ascii.eqb_spec a ESC) as [->|]; [|reflexivity].
  discriminate H.
Qed.

Lemma rstrip_printable (line : string) :
  printable_line line = true -> rstrip LF line = line.
Proof.
  unfold printable_line.
  induction line as [|a rest IH]; [reflexivity|].
  cbn. intros [Ha Hrest]%andb_prop. rewrite (IH Hrest).
  destruct rest; [|reflexivity].
  rewrite (printable_not_LF a Ha). reflexivity.
Qed.

Lemma esc_count_app (s1 s2 : string) :
  esc_count (s1 ++ s2)%string = (esc_count s1 + esc_count s2)%nat.
Proof.
  induction s1 as [|a rest IH]; [reflexivity|].
  change (String a rest ++ s2)%string with (String a (rest ++ s2)%string).
  cbn [esc_count]. rewrite IH. destruct (Ascii.eqb a ESC); reflexivity.
Qed.

Lemma esc_count_printable (line : string) :
  printable_line line = true -> esc_count line = O.
Proof.
  unfold printable_line.
  induction line as [|a rest IH]; [reflexivity|].
  cbn. intros [Ha Hrest]%andb_prop.
  rewrite (printable_not_ESC a Ha). exact (IH Hrest).
Qed.

Lemma esc_count_join (lines : list string) :
  forallb printable_line lines = true ->
  esc_count (join (chr1 LF) lines) = O.
Proof.
  unfold join. induction lines as [|l rest IH]; [reflexivity|].
  cbn [forallb String.concat]. intros [Hl Hrest]%andb_prop.
  destruct rest as [|l' rest']; [exact (esc_count_printable l Hl)|].
  rewrite !esc_count_app, (esc_count_printable l Hl), (IH Hrest).
  reflexivity.
Qed.

Lemma map_rstrip_printable (lines : list string) :
  forallb printable_line lines = true -> map (rstrip LF) lines = lines.
Proof.
  induction lines as [|l rest IH]; [reflexivity|].
  cbn. intros [Hl Hrest]%andb_prop.
  rewrite (rstrip_printable l Hl), (IH Hrest). reflexivity.
Qed.

(** C4 (as amended): without colours the text of a frame is
    [frame_to_text], whatever the width; for a frame given by lines of
    printable characters it is these lines joined by newlines, not padded,
    and holds no ESC. *)
Theorem plain_text_is_unpadded (cfg : config) (f : frame)
    (lines : list string) :
  choose_color_mode cfg = NoColor ->
  color_map f = ∅ ->
  contentString f = None ->
  content f = Some lines ->
  forallb printable_line lines = true ->
  frame_text cfg f = frame_to_text f
  /\ frame_text cfg f = join (chr1 LF) lines
  /\ esc_count (frame_text cfg f) = O.
Proof.
  intros Hmode _ Hs Hc Hp.
  assert (frame_text cfg f = frame_to_text f) as E.
  { unfold frame_text. rewrite Hmode. reflexivity. }
  assert (frame_to_text f = join (chr1 LF) lines) as T.
  { unfold frame_to_text. rewrite Hs, Hc, (map_rstrip_printable _ Hp).
    reflexivity. }
  split; [exact E|]. rewrite E, T.
  split; [reflexivity|]. exact (esc_count_join lines Hp).
Qed.

(** The amended C4 at the lines [A] and [BCD], with colours off and a
    canvas of width 5. *)
Lemma plain_text_is_unpadded_witness :
  frame_text (Config false (Some 5) false None false true true)
    (Frame None (Some ["A"; "BCD"]) ∅)
  = join (chr1 LF) ["A"; "BCD"].
Proof.
  apply (plain_text_is_unpadded
           (Config false (Some 5) false None false true true)
           (Frame None (Some ["A"; "BCD"]) ∅) ["A"; "BCD"]);
    reflexivity.
Defined.

(** C4 as stated fails: with colours off and width 3 the line [A] is
    written as it is, without the two spaces that pad it to the width. *)
Lemma plain_text_is_not_padded :
  choose_color_mode (Config false (Some 3) false None false true true)
    = NoColor
  /\ frame_text (Config false (Some 3) false None false true true)
       (Frame None (Some ["A"]) ∅) = "A"
  /\ padded_text 3 ["A"] = "A  "
  /\ frame_text (Config false (Some 3) false None false true true)
       (Frame None (Some ["A"]) ∅) <> padded_text 3 ["A"].
Proof. repeat split; try reflexivity. vm_compute. congruence. Qed.

Lemma render_cells_no_color (cm : gmap (Z * Z) string) (row : nat)
    (line : string) :
  forall col,
    render_cells NoColor cm row col line PyNone
    = map chr1 (list_ascii_of_string line).
Proof.
  induction line as [|ch rest IH]; intros col; [reflexivity|].
  cbn. rewrite IH. reflexivity.
Qed.

Lemma render_rows_from_no_color (cm : gmap (Z * Z) string) (width : Z)
    (lines : list string) :
  forall row,
    map (join EmptyString) (render_rows_from NoColor cm width row lines)
    = map (pad width) lines.
Proof.
  induction lines as [|l rest IH]; intros row; [reflexivity|].
  cbn [render_rows_from map].
  rewrite render_cells_no_color, join_chars, IH. reflexivity.
Qed.

(** X10. The renderer itself pads in every mode: called with a mode that is
    neither ['truecolor'] nor ['256'] it returns the padded lines.
    [play_animation] does not call it when colours are off. *)
Lemma render_no_color_pads (f : frame) (width : option Z) :
  render_frame_with_colors f width NoColor
  = join (chr1 LF) (padded_lines f width).
Proof.
  unfold render_frame_with_colors, render_rows, padded_lines.
  rewrite render_rows_from_no_color. reflexivity.
Qed.

End FrameRendererFacts.

(** ** PlaybackScheduler *)

Lemma writes_of_app (s : string) (tr1 tr2 : list event) :
  writes_of s (tr1 ++ tr2) = (writes_of s tr1 + writes_of s tr2)%nat.
Proof.
  induction tr1 as [|e tr1 IH]; [reflexivity|].
  cbn. destruct e as [s'| | |]; try exact IH.
  destruct (String.eqb s' s); cbn; rewrite IH; reflexivity.
Qed.

Lemma os_writes_app (tr1 tr2 : list event) :
  os_writes (tr1 ++ tr2) = os_writes tr1 ++ os_writes tr2.
Proof.
  induction tr1 as [|e tr1 IH]; [reflexivity|].
  cbn. destruct e; try exact IH. cbn. rewrite IH. reflexivity.
Qed.

Section PlaybackFacts.

Local Open Scope nat_scope.

Variable cfg : config.
Variable encoded : list string.
Variable signals : nat -> option (phase * signal).

Local Abbreviation n := (frame_count encoded).
Local Abbreviation frame_of := (frame_of cfg encoded).

Lemma succ_mod (it : nat) :
  0 < n ->
  S it mod n = if n <=? S (it mod n) then 0 else S (it mod n).
Proof.
  intros Hn.
  pose proof (Nat.div_mod_eq it n) as E.
  pose proof (Nat.mod_upper_bound it n ltac:(lia)) as B.
  destruct (Nat.leb_spec n (S (it mod n))) as [H|H].
  - symmetry. apply (Nat.mod_unique (S it) n (S (it / n)) 0); lia.
  - symmetry. apply (Nat.mod_unique (S it) n (it / n) (S (it mod n))); lia.
Qed.

(** One iteration without a signal, the loop going on. *)
Lemma play_loop_step (fuel it : nat) :
  0 < n -> signals it = None -> (loop cfg = true \/ S it < n) ->
  play_loop cfg encoded signals (S fuel) it (it mod n)
  = (frame_of it :: fst (play_loop cfg encoded signals fuel (S it)
                           (S it mod n)),
     snd (play_loop cfg encoded signals fuel (S it) (S it mod n))).
Proof.
  intros Hn Hs Hgo. cbn [play_loop]. rewrite Hs, (succ_mod it Hn).
  fold n. destruct (Nat.leb_spec n (S (it mod n))) as [H|H].
  - destruct (loop cfg) eqn:L.
    + destruct (play_loop _ _ _ _ _ _); reflexivity.
    + exfalso. destruct Hgo as [?|Hlt]; [discriminate|].
      rewrite Nat.mod_small in H by lia. lia.
  - destruct (play_loop _ _ _ _ _ _); reflexivity.
Qed.

(** The loop up to a signal in iteration [k]: the frames of the
    iterations before, the frame of iteration [k] if the signal comes
    during its sleep, and what the handler writes. *)
Lemma play_loop_signal (k : nat) (ph : phase) (s : signal) :
  0 < n -> (loop cfg = true \/ k < n) ->
  (forall j, j < k -> signals j = None) ->
  signals k = Some (ph, s) ->
  forall fuel it, it <= k -> k - it < fuel ->
    play_loop cfg encoded signals fuel it (it mod n)
    = (map frame_of (seq it (k - it))
         ++ match ph with Sleeping => [frame_of k] | BeforeWrite => [] end
         ++ fst (deliver s),
       Raise (snd (deliver s))).
Proof.
  intros Hn Hgo Hnone Hk.
  induction fuel as [|fuel IH]; intros it Hit Hfuel; [lia|].
  destruct (decide (it = k)) as [->|Hne].
  - rewrite Nat.sub_diag. cbn [play_loop seq map app]. rewrite Hk.
    destruct ph, s; reflexivity.
  - rewrite play_loop_step;
      [|exact Hn|apply Hnone; lia|destruct Hgo; [left; assumption|right; lia]].
    rewrite (IH (S it)) by lia.
    replace (k - it) with (S (k - S it)) by lia. reflexivity.
Qed.

(** The loop without a signal, played once. *)
Lemma play_loop_once :
  loop cfg = false ->
  (forall j, j < n -> signals j = None) ->
  forall fuel it, it < n -> n - it <= fuel ->
    play_loop cfg encoded signals fuel it (it mod n)
    = (map frame_of (seq it (n - it)), Break).
Proof.
  intros L Hnone.
  induction fuel as [|fuel IH]; intros it Hit Hfuel; [lia|].
  destruct (decide (S it = n)) as [Hlast|Hne].
  - cbn [play_loop]. rewrite (Hnone it Hit), L. fold n.
    rewrite (Nat.mod_small it n Hit).
    replace (n <=? S it) with true by (symmetry; apply Nat.leb_le; lia).
    replace (n - it) with 1 by lia. cbn [seq map]. unfold Playback.frame_of.
    rewrite (Nat.mod_small it n Hit). reflexivity.
  - rewrite play_loop_step; [|lia|apply Hnone; lia|right; lia].
    rewrite (IH (S it)) by lia.
    replace (n - it) with (S (n - S it)) by lia. reflexivity.
Qed.

(** The loop without a signal, played for ever: after any number of
    iterations it is still running, frame [j mod n] written in
    iteration [j]. *)
Lemma play_loop_forever :
  0 < n -> loop cfg = true -> (forall j, signals j = None) ->
  forall fuel it,
    play_loop cfg encoded signals fuel it (it mod n)
    = (map frame_of (seq it fuel), OutOfFuel).
Proof.
  intros Hn L Hnone.
  induction fuel as [|fuel IH]; intros it; [reflexivity|].
  rewrite play_loop_step; [|exact Hn|apply Hnone|left; exact L].
  rewrite (IH (S it)). reflexivity.
Qed.

Lemma writes_of_frames (s : string) (js : list nat) :
  writes_of s (map frame_of js) = 0.
Proof.
  induction js as [|j js IH]; [reflexivity|].
  cbn. unfold Playback.frame_of at 1, write_frame.
  destruct (prefer_flicker cfg); exact IH.
Qed.

Lemma os_writes_write_frames (js : list nat) :
  os_writes (map (write_frame cfg encoded) js)
  = map (fun j => frame_bytes cfg (nth j encoded EmptyString)) js.
Proof.
  induction js as [|j js IH]; [reflexivity|].
  cbn [map]. unfold write_frame at 1, frame_bytes at 1.
  destruct (prefer_flicker cfg); cbn [os_writes]; rewrite IH; reflexivity.
Qed.

(** Whatever the signals, a loop that is left has written cursor-show once
    if [_term_handler] ended it and not at all otherwise, and has not
    written the exit from the alternate buffer. *)
Lemma play_loop_left (fuel : nat) :
  forall it idx,
    writes_of ALT_EXIT (fst (play_loop cfg encoded signals fuel it idx)) = 0
    /\ match snd (play_loop cfg encoded signals fuel it idx) with
       | Break | Raise KeyboardInterrupt =>
           writes_of CURSOR_SHOW
             (fst (play_loop cfg encoded signals fuel it idx)) = 0
       | Raise (SystemExit code) =>
           code = 0%Z
           /\ writes_of CURSOR_SHOW
                (fst (play_loop cfg encoded signals fuel it idx)) = 1
       | OutOfFuel => True
       end.
Proof.
  assert (forall s idx tr,
            writes_of s (write_frame cfg encoded idx :: tr) = writes_of s tr)
    as W.
  { intros s idx tr. unfold write_frame.
    destruct (prefer_flicker cfg); reflexivity. }
  induction fuel as [|fuel IH]; intros it idx; [split; [reflexivity|exact I]|].
  cbn [play_loop].
  destruct (signals it) as [[[|] [|]]|]; cbn [deliver fst snd];
    rewrite ?W; try (split; [reflexivity|]; auto; fail).
  destruct (frame_count encoded <=? S idx).
  - destruct (loop cfg).
    + specialize (IH (S it) 0).
      destruct (play_loop cfg encoded signals fuel (S it) 0) as [tr r].
      cbn [fst snd] in *. rewrite !W. exact IH.
    + cbn [fst snd]. rewrite !W. split; reflexivity.
  - specialize (IH (S it) (S idx)).
    destruct (play_loop cfg encoded signals fuel (S it) (S idx)) as [tr r].
    cbn [fst snd] in *. rewrite !W. exact IH.
Qed.

Lemma os_writes_setup : os_writes (setup cfg) = [].
Proof. unfold setup. destruct (prefer_flicker cfg); reflexivity. Qed.

Lemma writes_of_setup :
  writes_of CURSOR_SHOW (setup cfg) = 0 /\ writes_of ALT_EXIT (setup cfg) = 0.
Proof. unfold setup. destruct (prefer_flicker cfg); split; reflexivity. Qed.

End PlaybackFacts.

(** ** Sessions of [play_animation] *)

Section SessionFacts.

Local Open Scope nat_scope.

Variable frames : list frame.
Variable cfg : config.
Variable signals : nat -> option (phase * signal).

Hypothesis some_frames : frames <> [].

Lemma frame_count_encoded :
  frame_count (encoded_frames cfg frames) = length frames.
Proof. unfold frame_count, encoded_frames. apply length_map. Qed.

Lemma count_positive : 0 < frame_count (encoded_frames cfg frames).
Proof.
  rewrite frame_count_encoded. destruct frames; [congruence|cbn; lia].
Qed.

Lemma play_animation_session (fuel : nat) :
  play_animation frames cfg signals fuel
  = play_session cfg (encoded_frames cfg frames) signals fuel.
Proof. unfold play_animation. destruct frames; [congruence|reflexivity]. Qed.

Lemma frames_in_order (k : nat) :
  k <= length frames ->
  map (frame_of cfg (encoded_frames cfg frames)) (seq 0 k)
  = map (write_frame cfg (encoded_frames cfg frames)) (seq 0 k).
Proof.
  intros Hk. apply map_ext_in. intros j Hj. apply in_seq in Hj.
  unfold frame_of. rewrite Nat.mod_small; [reflexivity|].
  rewrite frame_count_encoded. lia.
Qed.

Lemma loop_from_start (fuel : nat) :
  play_loop cfg (encoded_frames cfg frames) signals fuel 0 0
  = play_loop cfg (encoded_frames cfg frames) signals fuel 0
      (0 mod frame_count (encoded_frames cfg frames)).
Proof. rewrite Nat.Div0.mod_0_l. reflexivity. Qed.

(** A session that a signal ends in iteration [k]. *)
Lemma session_with_signal (k : nat) (ph : phase) (s : signal) (fuel : nat) :
  (loop cfg = true \/ k < length frames) ->
  (forall j, j < k -> signals j = None) ->
  signals k = Some (ph, s) ->
  k < fuel ->
  play_animation frames cfg signals fuel
  = (setup cfg
       ++ (map (frame_of cfg (encoded_frames cfg frames)) (seq 0 k)
           ++ match ph with
              | Sleeping => [frame_of cfg (encoded_frames cfg frames) k]
              | BeforeWrite => []
              end
           ++ fst (deliver s))
       ++ restore,
     match s with SIGINT => Returned | SIGTERM => Raised (SystemExit 0) end).
Proof.
  intros Hgo Hnone Hk Hfuel.
  rewrite play_animation_session. unfold play_session.
  rewrite loop_from_start.
  rewrite (play_loop_signal cfg _ signals k ph s count_positive);
    [|rewrite frame_count_encoded; exact Hgo|exact Hnone|exact Hk|lia|lia].
  rewrite Nat.sub_0_r. destruct s; reflexivity.
Qed.

Lemma nth_all (l : list string) :
  forall g : string -> string,
    map (fun j => g (nth j l EmptyString)) (seq 0 (length l)) = map g l.
Proof.
  induction l as [|x l IH]; intros g; [reflexivity|].
  cbn [length seq map nth]. f_equal.
  rewrite <- seq_shift, map_map. exact (IH g).
Qed.

(** C8: without a signal, a session of [n] frames that does not loop writes
    the [n] frames once each, in order, between the set-up and the
    restoration, and returns; a session that loops is still running after
    any number of iterations, iteration [j] writing frame [j mod n], so that
    frame 0 follows frame [n - 1]. *)
Theorem frames_written_in_order :
  (forall k, signals k = None) ->
  (loop cfg = false ->
     forall fuel, length frames <= fuel ->
       play_animation frames cfg signals fuel
       = (setup cfg
            ++ map (write_frame cfg (encoded_frames cfg frames))
                 (seq 0 (length frames))
            ++ restore,
          Returned)
       /\ os_writes (fst (play_animation frames cfg signals fuel))
          = map (frame_bytes cfg) (encoded_frames cfg frames)
       /\ length (os_writes (fst (play_animation frames cfg signals fuel)))
          = length frames)
  /\ (loop cfg = true ->
      forall fuel,
        play_animation frames cfg signals fuel
        = (setup cfg
             ++ map (fun j => write_frame cfg (encoded_frames cfg frames)
                                (j mod length frames))
                  (seq 0 fuel),
           Running)).
Proof.
  intros Hnone. split.
  - intros L fuel Hfuel.
    assert (play_animation frames cfg signals fuel
            = (setup cfg
                 ++ map (write_frame cfg (encoded_frames cfg frames))
                      (seq 0 (length frames))
                 ++ restore,
               Returned)) as E.
    { rewrite play_animation_session. unfold play_session.
      rewrite loop_from_start.
      rewrite (play_loop_once cfg _ signals L (fun j _ => Hnone j));
        [|exact count_positive|rewrite frame_count_encoded; lia].
      rewrite Nat.sub_0_r, frame_count_encoded.
      rewrite (frames_in_order (length frames)) by lia. reflexivity. }
    assert (os_writes (fst (play_animation frames cfg signals fuel))
            = map (frame_bytes cfg) (encoded_frames cfg frames)) as W.
    { rewrite E. cbn [fst].
      rewrite !os_writes_app, os_writes_setup, os_writes_write_frames.
      rewrite <- frame_count_encoded. unfold frame_count.
      rewrite nth_all. cbn. apply app_nil_r. }
    split; [exact E|]. split; [exact W|].
    rewrite W, length_map. exact frame_count_encoded.
  - intros L fuel.
    rewrite play_animation_session. unfold play_session.
    rewrite loop_from_start.
    rewrite (play_loop_forever cfg _ signals count_positive L Hnone).
    unfold frame_of. rewrite frame_count_encoded. reflexivity.
Qed.

(** C1 (as amended): a session over a non-empty frame list that ends writes
    the exit from the alternate buffer exactly once if it entered it, and
    the cursor-show sequence exactly once when the last frame has been
    played or a user interrupt arrives in the loop; when a termination
    signal arrives in the loop, cursor-show is written twice, by the signal
    handler and by the [finally] block, and the session exits with status
    0.  No session ends without the restoration. *)
Theorem restoration_on_each_exit_path :
  (loop cfg = false ->
     (forall j, j < length frames -> signals j = None) ->
     forall fuel, length frames <= fuel ->
       snd (play_animation frames cfg signals fuel) = Returned
       /\ writes_of CURSOR_SHOW (fst (play_animation frames cfg signals fuel))
          = 1
       /\ (prefer_flicker cfg = false ->
           writes_of ALT_EXIT (fst (play_animation frames cfg signals fuel))
           = 1))
  /\ (forall k ph s,
        (loop cfg = true \/ k < length frames) ->
        (forall j, j < k -> signals j = None) ->
        signals k = Some (ph, s) ->
        forall fuel, k < fuel ->
          (prefer_flicker cfg = false ->
           writes_of ALT_EXIT (fst (play_animation frames cfg signals fuel))
           = 1)
          /\ match s with
             | SIGINT =>
                 snd (play_animation frames cfg signals fuel) = Returned
                 /\ writes_of CURSOR_SHOW
                      (fst (play_animation frames cfg signals fuel)) = 1
             | SIGTERM =>
                 snd (play_animation frames cfg signals fuel)
                 = Raised (SystemExit 0)
                 /\ writes_of CURSOR_SHOW
                      (fst (play_animation frames cfg signals fuel)) = 2
             end)
  /\ (forall fuel,
        snd (play_animation frames cfg signals fuel) <> Running ->
        (prefer_flicker cfg = false ->
         writes_of ALT_EXIT (fst (play_animation frames cfg signals fuel)) = 1)
        /\ match snd (play_animation frames cfg signals fuel) with
           | Returned =>
               writes_of CURSOR_SHOW
                 (fst (play_animation frames cfg signals fuel)) = 1
           | _ =>
               writes_of CURSOR_SHOW
                 (fst (play_animation frames cfg signals fuel)) = 2
           end).
Proof.
  split; [|split].
  - intros L Hnone fuel Hfuel.
    rewrite play_animation_session. unfold play_session.
    rewrite loop_from_start.
    rewrite (play_loop_once cfg _ signals L);
      [|rewrite frame_count_encoded; exact Hnone|exact count_positive
       |rewrite frame_count_encoded; lia].
    cbn [fst snd].
    rewrite !writes_of_app, !(writes_of_frames cfg (encoded_frames cfg frames)).
    destruct (writes_of_setup cfg) as [-> ->].
    repeat split; reflexivity.
  - intros k ph s Hgo Hnone Hk fuel Hfuel.
    rewrite (session_with_signal k ph s fuel Hgo Hnone Hk Hfuel).
    cbn [fst snd].
    rewrite !writes_of_app, !(writes_of_frames cfg (encoded_frames cfg frames)).
    destruct (writes_of_setup cfg) as [-> ->].
    unfold frame_of, write_frame.
    destruct s, ph, (prefer_flicker cfg); repeat split; reflexivity.
  - intros fuel. rewrite play_animation_session. unfold play_session.
    pose proof (play_loop_left cfg (encoded_frames cfg frames) signals fuel
                  0 0) as [HA HS].
    destruct (play_loop cfg (encoded_frames cfg frames) signals fuel 0 0)
      as [body r].
    cbn [fst snd] in HA, HS.
    destruct (writes_of_setup cfg) as [S1 S2].
    destruct r as [|[|code]|]; cbn [fst snd]; intros Hrun;
      [| |destruct HS as [_ HS]|congruence];
      rewrite !writes_of_app, S1, S2, HA, HS; split; reflexivity.
Qed.

End SessionFacts.

Local Open Scope string_scope.

(** C8 at two frames played once. *)
Lemma frames_written_in_order_witness :
  play_animation [Frame None (Some ["A"]) ∅; Frame None (Some ["B"]) ∅]
    (Config false None false None false false false) (fun _ => None) 2
  = ([StdoutWrite CURSOR_HIDE; StdoutWrite ALT_ENTER; StdoutWrite CLEAR_HOME;
      OsWrite (HOME ++ "A"); OsWrite (HOME ++ "B");
      StdoutWrite CURSOR_SHOW; StdoutFlush; StdoutWrite ALT_EXIT],
     Returned).
Proof.
  apply (proj1 (frames_written_in_order
                  [Frame None (Some ["A"]) ∅; Frame None (Some ["B"]) ∅]
                  (Config false None false None false false false)
                  (fun _ => None) ltac:(discriminate) (fun _ => eq_refl))
           eq_refl 2%nat).
  cbn. lia.
Defined.

(** The amended C1 at a looping session of two frames that a user interrupt
    ends during the sleep of the fourth iteration. *)
Lemma restoration_on_each_exit_path_witness :
  writes_of CURSOR_SHOW
    (fst (play_animation
            [Frame None (Some ["A"]) ∅; Frame None (Some ["B"]) ∅]
            (Config true None false None false false false)
            (fun j => if (j =? 3)%nat then Some (Sleeping, SIGINT) else None)
            4))
  = 1%nat.
Proof.
  apply (proj1 (proj2 (restoration_on_each_exit_path
                         [Frame None (Some ["A"]) ∅; Frame None (Some ["B"]) ∅]
                         (Config true None false None false false false)
                         (fun j => if (j =? 3)%nat
                                   then Some (Sleeping, SIGINT) else None)
                         ltac:(discriminate)))
           3%nat Sleeping SIGINT (or_introl eq_refl)).
  - intros [|[|[|j]]] H; [reflexivity..|lia].
  - reflexivity.
  - lia.
Defined.

(** C1 as stated fails: when a termination signal arrives during the sleep
    after the first frame, cursor-show is written twice. *)
Lemma cursor_shown_twice_on_sigterm :
  play_animation [Frame None (Some ["A"]) ∅]
    (Config true None false None false false false)
    (fun j => if (j =? 0)%nat then Some (Sleeping, SIGTERM) else None) 1
  = ([StdoutWrite CURSOR_HIDE; StdoutWrite ALT_ENTER; StdoutWrite CLEAR_HOME;
      OsWrite (HOME ++ "A");
      StdoutWrite CURSOR_SHOW; StdoutFlush;
      StdoutWrite CURSOR_SHOW; StdoutFlush; StdoutWrite ALT_EXIT],
     Raised (SystemExit 0))
  /\ writes_of CURSOR_SHOW
       (fst (play_animation [Frame None (Some ["A"]) ∅]
               (Config true None false None false false false)
               (fun j => if (j =? 0)%nat then Some (Sleeping, SIGTERM)
                         else None) 1))
     = 2%nat.
Proof. split; reflexivity. Qed.

(** C7: for the empty frame list [play_animation] prints its message and
    returns; it writes no frame and no escape sequence. *)
Theorem empty_animation_writes_nothing (cfg : config)
    (signals : nat -> option (phase * signal)) (fuel : nat) :
  play_animation [] cfg signals fuel
  = ([Print "No frames found in animation."], Returned)
  /\ os_writes (fst (play_animation [] cfg signals fuel)) = []
  /\ forall s, writes_of s (fst (play_animation [] cfg signals fuel)) = O.
Proof. repeat split. Qed.

(** * Further properties of the code *)

(** ** ColorConverter: the values of a token and the palette *)

Section ColorValues.

Local Open Scope Z_scope.

Lemma hex_not_hash (a : ascii) (x : Z) :
  hex_val a = Some x -> Ascii.eqb a "#" = false.
Proof.
  intros H. destruct (Ascii.eqb_spec a "#") as [->|]; [|reflexivity].
  discriminate H.
Qed.

Lemma int16_digits_value (a b : ascii) (x y : Z) :
  hex_val a = Some x -> hex_val b = Some y ->
  int16 (String a (String b EmptyString)) = Some (16 * x + y).
Proof. intros Hx Hy. cbn. rewrite Hx, Hy. reflexivity. Qed.

(** X1. The short form: behind any leading [#], three hex digits give the
    colour whose channels are the digits doubled, 17 times their values;
    the token reads as the six-digit token that repeats each digit. *)
Theorem hex_short_form_doubles (s : string) (a b c : ascii) (x y z : Z) :
  lstrip "#" s = String a (String b (String c EmptyString)) ->
  hex_val a = Some x -> hex_val b = Some y -> hex_val c = Some z ->
  hex_to_rgb s = Some (17 * x, 17 * y, 17 * z)
  /\ hex_to_rgb s
     = hex_to_rgb
         (String a (String a (String b (String b (String c (String c
            EmptyString)))))).
Proof.
  intros Ht Ha Hb Hc.
  assert (hex_to_rgb s = Some (17 * x, 17 * y, 17 * z)) as E.
  { unfold hex_to_rgb. rewrite Ht.
    change (len (String a (String b (String c EmptyString))) =? 3) with true.
    cbv beta iota. unfold slice. cbn [double_chars Nat.sub]. cbn [substring].
    rewrite (int16_digits_value a a x x Ha Ha),
      (int16_digits_value b b y y Hb Hb), (int16_digits_value c c z z Hc Hc).
    repeat f_equal; lia. }
  split; [exact E|]. rewrite E. unfold hex_to_rgb.
  cbn [lstrip]. rewrite (hex_not_hash a x Ha).
  change (len (String a (String a (String b (String b (String c (String c
            EmptyString)))))) =? 3) with false.
  cbv beta iota. unfold slice. cbn [Nat.sub]. cbn [substring].
  rewrite (int16_digits_value a a x x Ha Ha),
    (int16_digits_value b b y y Hb Hb), (int16_digits_value c c z z Hc Hc).
  repeat f_equal; lia.
Qed.

(** The short form at [#0af]. *)
Lemma hex_short_form_doubles_witness :
  hex_to_rgb "#0af" = Some (17 * 0, 17 * 10, 17 * 15).
Proof.
  apply (hex_short_form_doubles "#0af" "0" "a" "f" 0 10 15); reflexivity.
Defined.

(** X2. The long form: behind any leading [#], six hex digits give the three
    bytes they spell, and whatever follows the sixth digit is not read. *)
Theorem hex_long_form_ignores_tail (s tail : string) (a b c d e f : ascii)
    (x1 x2 y1 y2 z1 z2 : Z) :
  lstrip "#" s
  = String a (String b (String c (String d (String e (String f tail))))) ->
  hex_val a = Some x1 -> hex_val b = Some x2 ->
  hex_val c = Some y1 -> hex_val d = Some y2 ->
  hex_val e = Some z1 -> hex_val f = Some z2 ->
  hex_to_rgb s = Some (16 * x1 + x2, 16 * y1 + y2, 16 * z1 + z2).
Proof.
  intros Ht Ha Hb Hc Hd He Hf. unfold hex_to_rgb. rewrite Ht.
  assert ((len (String a (String b (String c (String d (String e
             (String f tail)))))) =? 3) = false) as L.
  { apply Z.eqb_neq. rewrite !len_cons. pose proof (len_nonneg tail). lia. }
  rewrite L. unfold slice. cbn [Nat.sub]. cbn [substring].
  assert (substring 0 0 tail = EmptyString) as E0 by (destruct tail; reflexivity).
  rewrite E0.
  rewrite (int16_digits_value a b x1 x2 Ha Hb),
    (int16_digits_value c d y1 y2 Hc Hd), (int16_digits_value e f z1 z2 He Hf).
  reflexivity.
Qed.

(** The long form at [#FF8000cc], a colour with an alpha byte. *)
Lemma hex_long_form_ignores_tail_witness :
  hex_to_rgb "#FF8000cc" = Some (16 * 15 + 15, 16 * 8 + 0, 16 * 0 + 0).
Proof.
  apply (hex_long_form_ignores_tail "#FF8000cc" "cc" "F" "F" "8" "0" "0" "0");
    reflexivity.
Defined.

Lemma int16_bounds (s : string) (v : Z) :
  int16 s = Some v -> -15 <= v <= 255.
Proof.
  destruct s as [|a [|b [|c s]]]; cbn; try discriminate.
  - intros H. apply hex_val_range in H. lia.
  - destruct (hex_val a) as [x|] eqn:Ha, (hex_val b) as [y|] eqn:Hb;
      try (apply hex_val_range in Ha); try (apply hex_val_range in Hb);
      repeat case_match; intros [= <-]; lia.
Qed.

(** A level of the colour cube for any channel [hex_to_rgb] can return. *)
Lemma level_range_signed (c : Z) :
  -15 <= c <= 255 -> 0 <= round_div (c * 5) 255 <= 5.
Proof.
  intros H. pose proof (round_div_near (c * 5) 255 ltac:(lia)). lia.
Qed.

(** X3. Whatever token [hex_to_rgb] accepts, each channel it returns lies in
    -15..255, and [rgb_to_ansi256] sends the colour to an index in
    16..255. *)
Theorem parsed_colour_has_palette_index (s : string) (r g b : Z) :
  hex_to_rgb s = Some (r, g, b) ->
  (-15 <= r <= 255 /\ -15 <= g <= 255 /\ -15 <= b <= 255)
  /\ 16 <= rgb_to_ansi256 r g b <= 255.
Proof.
  unfold hex_to_rgb.
  destruct (int16 (slice 0 2 _)) as [r'|] eqn:Er; [|discriminate].
  destruct (int16 (slice 2 4 _)) as [g'|] eqn:Eg; [|discriminate].
  destruct (int16 (slice 4 6 _)) as [b'|] eqn:Eb; [|discriminate].
  intros [= <- <- <-].
  apply int16_bounds in Er, Eg, Eb.
  split; [auto|]. unfold rgb_to_ansi256.
  destruct ((r' =? g') && (g' =? b')).
  - destruct (r' <? 8) eqn:A; [lia|].
    destruct (248 <? r') eqn:B; [lia|].
    rewrite Z.ltb_ge in A, B. pose proof (ramp_range r' ltac:(lia)). lia.
  - pose proof (level_range_signed r' Er).
    pose proof (level_range_signed g' Eg).
    pose proof (level_range_signed b' Eb). cbv zeta. lia.
Qed.

(** The token [-f+a 9], which [int] reads as -15, 10 and 9. *)
Lemma parsed_colour_has_palette_index_witness :
  16 <= rgb_to_ansi256 (-15) 10 9 <= 255.
Proof.
  apply (parsed_colour_has_palette_index "-f+a 9" (-15) 10 9). reflexivity.
Defined.

End ColorValues.

Section Palette.

Local Open Scope Z_scope.

(** The level of a channel: channels up to 25 are level 0, then one level
    every 51. *)
Lemma level_closed_form (c : Z) :
  0 <= c <= 255 -> round_div (c * 5) 255 = (c + 25) / 51.
Proof.
  intros H. pose proof (round_div_near (c * 5) 255 ltac:(lia)) as N.
  apply (Z.div_unique (c + 25) 51 _ (c + 25 - 51 * round_div (c * 5) 255));
    lia.
Qed.

Lemma cube_branch_range (r g b : Z) :
  0 <= r <= 255 -> 0 <= g <= 255 -> 0 <= b <= 255 ->
  ~ (r = g /\ g = b) ->
  16 <= rgb_to_ansi256 r g b <= 231.
Proof.
  intros Hr Hg Hb Hne. unfold rgb_to_ansi256.
  destruct ((r =? g) && (g =? b)) eqn:D.
  - apply andb_prop in D as [D1 D2]. apply Z.eqb_eq in D1, D2. tauto.
  - pose proof (level_range r Hr). pose proof (level_range g Hg).
    pose proof (level_range b Hb). cbv zeta. lia.
Qed.

(** X4. Off the grey diagonal, the index is that of the 6x6x6 cube at the
    levels of the three channels, lies in 16..231, and gives the three
    levels back. *)
Theorem cube_index_encodes_levels (r g b : Z) :
  0 <= r <= 255 -> 0 <= g <= 255 -> 0 <= b <= 255 ->
  ~ (r = g /\ g = b) ->
  rgb_to_ansi256 r g b
  = 16 + 36 * ((r + 25) / 51) + 6 * ((g + 25) / 51) + (b + 25) / 51
  /\ 16 <= rgb_to_ansi256 r g b <= 231
  /\ (rgb_to_ansi256 r g b - 16) / 36 = (r + 25) / 51
  /\ (rgb_to_ansi256 r g b - 16) / 6 mod 6 = (g + 25) / 51
  /\ (rgb_to_ansi256 r g b - 16) mod 6 = (b + 25) / 51.
Proof.
  intros Hr Hg Hb Hne.
  assert (rgb_to_ansi256 r g b
          = 16 + 36 * ((r + 25) / 51) + 6 * ((g + 25) / 51) + (b + 25) / 51)
    as E.
  { unfold rgb_to_ansi256.
    destruct ((r =? g) && (g =? b)) eqn:D.
    - apply andb_prop in D as [D1 D2]. apply Z.eqb_eq in D1, D2. tauto.
    - cbv zeta. rewrite !level_closed_form by assumption. reflexivity. }
  rewrite E.
  pose proof (level_range r Hr) as Lr. pose proof (level_range g Hg) as Lg.
  pose proof (level_range b Hb) as Lb.
  rewrite level_closed_form in Lr, Lg, Lb by assumption.
  set (x := (r + 25) / 51) in *. set (y := (g + 25) / 51) in *.
  set (z := (b + 25) / 51) in *.
  replace (16 + 36 * x + 6 * y + z - 16) with (36 * x + 6 * y + z) by lia.
  repeat split; try lia.
  - symmetry. apply (Z.div_unique _ 36 x (6 * y + z)); lia.
  - assert ((36 * x + 6 * y + z) / 6 = 6 * x + y) as ->
      by (symmetry; apply (Z.div_unique _ 6 _ z); lia).
    symmetry. apply (Z.mod_unique _ 6 x y); lia.
  - symmetry. apply (Z.mod_unique _ 6 (6 * x + y) z); lia.
Qed.

(** The cube at the orange (255, 128, 0): levels 5, 3 and 0. *)
Lemma cube_index_encodes_levels_witness :
  rgb_to_ansi256 255 128 0
  = 16 + 36 * ((255 + 25) / 51) + 6 * ((128 + 25) / 51) + (0 + 25) / 51.
Proof.
  apply (cube_index_encodes_levels 255 128 0); lia.
Defined.

(** X5. The grey ramp, the indices 232..255, is reached by the greys from 8 to
    248 and by no other colour. *)
Theorem ramp_reached_by_greys_only (r g b : Z) :
  0 <= r <= 255 -> 0 <= g <= 255 -> 0 <= b <= 255 ->
  (232 <= rgb_to_ansi256 r g b <-> r = g /\ g = b /\ 8 <= r <= 248).
Proof.
  intros Hr Hg Hb.
  destruct (Z.eq_dec r g) as [<-|N1].
  - destruct (Z.eq_dec r b) as [<-|N2].
    + rewrite grey_branch.
      destruct (r <? 8) eqn:A; [rewrite Z.ltb_lt in A; lia|].
      destruct (248 <? r) eqn:B; [rewrite Z.ltb_lt in B; lia|].
      rewrite Z.ltb_ge in A, B. pose proof (ramp_range r ltac:(lia)). lia.
    + pose proof (cube_branch_range r r b Hr Hr Hb ltac:(lia)). lia.
  - pose proof (cube_branch_range r g b Hr Hg Hb ltac:(lia)). lia.
Qed.

(** The ramp at the grey 128 and off it at (128, 128, 129). *)
Lemma ramp_reached_by_greys_only_witness :
  232 <= rgb_to_ansi256 128 128 128 /\ ~ 232 <= rgb_to_ansi256 128 128 129.
Proof.
  split.
  - apply (ramp_reached_by_greys_only 128 128 128); lia.
  - intros H. apply (ramp_reached_by_greys_only 128 128 129) in H; lia.
Defined.

End Palette.

(** ** FrameRenderer: what every rendered row keeps *)

Section RowInvariants.

Local Open Scope list_scope.

Lemma join_empty_cons (x : string) (l : list string) :
  join EmptyString (x :: l) = (x ++ join EmptyString l)%string.
Proof.
  unfold join. cbn [String.concat]. destruct l as [|y l].
  - cbn [String.concat].
    induction x as [|a x IH]; [reflexivity|].
    change (String a x ++ EmptyString)%string
      with (String a (x ++ EmptyString)%string).
    rewrite <- IH. reflexivity.
  - reflexivity.
Qed.

Lemma is_escape_reset : is_escape reset = true.
Proof. reflexivity. Qed.

Lemma is_escape_truecolor (c : Z * Z * Z) : is_escape (fg_truecolor c) = true.
Proof. destruct c as [[r g] b]. reflexivity. Qed.

Lemma is_escape_256 (n : Z) : is_escape (fg_256 n) = true.
Proof. reflexivity. Qed.

Lemma truecolor_not_reset (c : Z * Z * Z) :
  String.eqb (fg_truecolor c) reset = false.
Proof. destruct c as [[r g] b]. reflexivity. Qed.

Lemma ansi256_not_reset (n : Z) : String.eqb (fg_256 n) reset = false.
Proof. reflexivity. Qed.

Lemma visible_app (out1 out2 : list string) :
  visible (out1 ++ out2) = visible out1 ++ visible out2.
Proof. apply List.filter_app. Qed.

(** One cell adds one visible piece, its character. *)
Lemma visible_emit_cell (mode : color_mode) (rgb : option (Z * Z * Z))
    (prev : pyval) (ch : ascii) :
  visible (fst (emit_cell mode rgb prev ch)) = [chr1 ch].
Proof.
  unfold emit_cell, visible.
  destruct mode; [| |reflexivity].
  - case_decide; [reflexivity|].
    destruct prev, rgb as [c|]; cbn [fst is_not_None app List.filter];
      rewrite ?is_escape_reset, ?is_escape_truecolor; reflexivity.
  - destruct rgb as [[[r g] b]|]; case_decide; try reflexivity;
      destruct prev; cbn [fst is_not_None app List.filter];
      rewrite ?is_escape_reset, ?is_escape_256; reflexivity.
Qed.

Lemma visible_render_cells (mode : color_mode) (cm : gmap (Z * Z) string)
    (row : nat) (line : string) :
  forall col prev,
    visible (render_cells mode cm row col line prev)
    = map chr1 (list_ascii_of_string line).
Proof.
  induction line as [|ch rest IH]; intros col prev.
  - cbn. destruct (is_not_None prev); reflexivity.
  - cbn [render_cells list_ascii_of_string map].
    pose proof (visible_emit_cell mode (resolve cm row col) prev ch) as V.
    destruct (emit_cell mode (resolve cm row col) prev ch) as [pieces prev'].
    cbn [fst] in V. rewrite visible_app, V, IH. reflexivity.
Qed.

Lemma visible_rows_from (mode : color_mode) (cm : gmap (Z * Z) string)
    (width : Z) (lines : list string) :
  forall row,
    map (fun out => join EmptyString (visible out))
      (render_rows_from mode cm width row lines)
    = map (pad width) lines.
Proof.
  induction lines as [|l rest IH]; intros row; [reflexivity|].
  cbn [render_rows_from map].
  rewrite visible_render_cells, join_chars, IH. reflexivity.
Qed.

(** X6. Colouring leaves the text alone: in every mode and for every colour
    map, the pieces of each row that are not escapes spell the padded line
    of that row. *)
Theorem colouring_keeps_the_text (f : frame) (width : option Z)
    (mode : color_mode) :
  map (fun out => join EmptyString (visible out)) (render_rows f width mode)
  = padded_lines f width.
Proof. unfold render_rows, padded_lines. apply visible_rows_from. Qed.

Lemma closed_emit_cell (mode : color_mode) (rgb : option (Z * Z * Z))
    (prev : pyval) (ch : ascii) (es : list string) :
  closed (is_colour (snd (emit_cell mode rgb prev ch))) es = true ->
  closed (is_colour prev)
    (escapes (fst (emit_cell mode rgb prev ch)) ++ es) = true.
Proof.
  unfold emit_cell, escapes.
  destruct mode; [| |intros Hcl; exact Hcl].
  - case_decide; [intros Hcl; exact Hcl|].
    destruct prev as [|[c0|]|n0], rgb as [c|];
      cbn [fst snd is_not_None is_colour app List.filter closed];
      rewrite ?is_escape_reset, ?is_escape_truecolor;
      cbn [app closed];
      rewrite ?String.eqb_refl, ?truecolor_not_reset;
      cbn [negb andb closed]; rewrite ?String.eqb_refl, ?truecolor_not_reset;
      cbn [negb andb]; intros Hcl; exact Hcl.
  - destruct rgb as [[[r g] b]|]; case_decide; try (intros Hcl; exact Hcl);
      destruct prev as [|[c0|]|n0];
      cbn [fst snd is_not_None is_colour app List.filter closed];
      rewrite ?is_escape_reset, ?is_escape_256;
      cbn [app closed];
      rewrite ?String.eqb_refl, ?ansi256_not_reset;
      cbn [negb andb closed]; rewrite ?String.eqb_refl, ?ansi256_not_reset;
      cbn [negb andb]; intros Hcl; try exact Hcl; congruence.
Qed.

Lemma closed_render_cells (mode : color_mode) (cm : gmap (Z * Z) string)
    (row : nat) (line : string) :
  forall col prev,
    closed (is_colour prev)
      (escapes (render_cells mode cm row col line prev)) = true.
Proof.
  induction line as [|ch rest IH]; intros col prev.
  - cbn. destruct prev as [|[c|]|n]; reflexivity.
  - cbn [render_cells].
    pose proof (closed_emit_cell mode (resolve cm row col) prev ch) as C.
    destruct (emit_cell mode (resolve cm row col) prev ch) as [pieces prev'].
    cbn [fst snd] in C. rewrite escapes_app. apply C, IH.
Qed.

(** X7. No colour bleeds: in every row, read from left to right, a colour
    escape is written only while no colour is active, and a reset has
    ended the last colour when the row ends. *)
Theorem rows_close_their_colours (f : frame) (width : option Z)
    (mode : color_mode) (i : nat) (out : list string) :
  render_rows f width mode !! i = Some out ->
  closed false (escapes out) = true.
Proof.
  unfold render_rows.
  generalize (match width with
              | Some w => w
              | None => max_len (splitlines (frame_to_text f))
              end) as w.
  generalize (splitlines (frame_to_text f)) as lines. intros lines w.
  generalize 0%nat as row. revert i.
  induction lines as [|l rest IH]; intros i row H; [discriminate H|].
  destruct i as [|i].
  - cbn in H. injection H as <-.
    exact (closed_render_cells mode (color_map f) row (pad w l) 0%nat PyNone).
  - exact (IH i (S row) H).
Qed.

(** The row of [ABC] with a red first and a blue third cell, in 256
    colours. *)
Lemma rows_close_their_colours_witness :
  closed false
    (escapes
       [fg_256 196; "A"; reset; "B"; fg_256 21; "C"; reset]%string) = true.
Proof.
  apply (rows_close_their_colours
           (Frame None (Some ["ABC"%string])
              (<[ (0, 0)%Z := "#ff0000"%string ]>
                 {[ (0, 2)%Z := "#0000ff"%string ]}))
           None Ansi256 0%nat).
  reflexivity.
Defined.

End RowInvariants.

(** ** FrameRenderer: frames without colours, and unused entries *)

Section PlainRows.

Local Open Scope list_scope.

Lemma emit_cell_plain (mode : color_mode) (ch : ascii) :
  mode <> Truecolor ->
  emit_cell mode None PyNone ch = ([chr1 ch], PyNone).
Proof.
  intros Hm. destruct mode; [congruence| |reflexivity].
  cbn. case_decide; [reflexivity|congruence].
Qed.

Lemma render_cells_plain (mode : color_mode) (cm : gmap (Z * Z) string)
    (row : nat) (line : string) :
  mode <> Truecolor ->
  forall col,
    (forall k, (k < String.length line)%nat ->
       resolve cm row (col + k) = None) ->
    render_cells mode cm row col line PyNone
    = map chr1 (list_ascii_of_string line).
Proof.
  intros Hm. induction line as [|ch rest IH]; intros col Hc; [reflexivity|].
  cbn [render_cells list_ascii_of_string map].
  pose proof (Hc 0%nat ltac:(cbn; lia)) as H0.
  rewrite Nat.add_0_r in H0. rewrite H0, (emit_cell_plain mode ch Hm).
  rewrite (IH (S col)); [reflexivity|].
  intros k Hk. rewrite Nat.add_succ_l, <- Nat.add_succ_r. apply Hc. cbn. lia.
Qed.

Lemma render_rows_from_plain (mode : color_mode) (cm : gmap (Z * Z) string)
    (width : Z) (lines : list string) :
  mode <> Truecolor ->
  (forall row col, resolve cm row col = None) ->
  forall row,
    map (join EmptyString) (render_rows_from mode cm width row lines)
    = map (pad width) lines.
Proof.
  intros Hm Hc. induction lines as [|l rest IH]; intros row; [reflexivity|].
  cbn [render_rows_from map].
  rewrite (render_cells_plain mode cm row (pad width l) Hm 0%nat)
    by (intros; apply Hc).
  rewrite join_chars, IH. reflexivity.
Qed.

(** After any cell the truecolor branch holds a tuple in [prev_color]. *)
Lemma truecolor_cell_leaves_tuple (rgb : option (Z * Z * Z)) (prev : pyval)
    (ch : ascii) :
  exists pieces t,
    emit_cell Truecolor rgb prev ch = (pieces ++ [chr1 ch], PyTuple t).
Proof.
  cbn. case_decide as E.
  - exists [], rgb. rewrite <- E. reflexivity.
  - eexists _, rgb. rewrite !app_assoc. reflexivity.
Qed.

Lemma render_cells_truecolor_tail (cm : gmap (Z * Z) string) (row : nat)
    (line : string) :
  forall col t,
    exists body,
      render_cells Truecolor cm row col line (PyTuple t) = body ++ [reset].
Proof.
  induction line as [|ch rest IH]; intros col t.
  - exists []. reflexivity.
  - cbn [render_cells].
    destruct (truecolor_cell_leaves_tuple (resolve cm row col) (PyTuple t) ch)
      as (pieces & t' & ->).
    destruct (IH (S col) t') as (body & ->).
    exists ((pieces ++ [chr1 ch]) ++ body). rewrite app_assoc. reflexivity.
Qed.

(** X8. In truecolor every row with at least one character ends with a reset,
    whatever the colour map: also a row without any coloured cell. *)
Theorem truecolor_rows_end_with_reset (f : frame) (width : option Z)
    (i : nat) (line : string) :
  padded_lines f width !! i = Some line ->
  line <> EmptyString ->
  exists body,
    render_rows f width Truecolor !! i = Some (body ++ [reset]).
Proof.
  intros Hline Hne. unfold render_rows. unfold padded_lines in Hline.
  rewrite (render_rows_from_lookup _ _ _ _ 0%nat i _ Hline).
  destruct line as [|ch rest]; [congruence|].
  cbn [render_cells].
  destruct (truecolor_cell_leaves_tuple
              (resolve (color_map f) (0 + i) 0) PyNone ch)
    as (pieces & t & ->).
  destruct (render_cells_truecolor_tail (color_map f) (0 + i) rest 1%nat t)
    as (body & ->).
  exists ((pieces ++ [chr1 ch]) ++ body). rewrite app_assoc. reflexivity.
Qed.

(** The row [ab] without colours, in truecolor. *)
Lemma truecolor_rows_end_with_reset_witness :
  exists body,
    render_rows (Frame (Some "ab"%string) None ∅) None Truecolor !! 0%nat
    = Some (body ++ [reset]).
Proof.
  apply (truecolor_rows_end_with_reset
           (Frame (Some "ab"%string) None ∅) None 0%nat "ab"%string);
    [reflexivity|discriminate].
Defined.

(** X9. A frame none of whose cells resolves to a colour is rendered as its
    padded lines joined by newlines, without any escape, in the 256-colour
    mode and in a mode that is no colour mode. *)
Theorem uncoloured_frame_is_plain (f : frame) (width : option Z)
    (mode : color_mode) :
  mode <> Truecolor ->
  (forall row col, resolve (color_map f) row col = None) ->
  render_frame_with_colors f width mode
  = join (chr1 LF) (padded_lines f width)
  /\ Forall (fun out => escapes out = []) (render_rows f width mode).
Proof.
  intros Hm Hc. split.
  - unfold render_frame_with_colors, render_rows, padded_lines.
    rewrite (render_rows_from_plain mode _ _ _ Hm Hc). reflexivity.
  - unfold render_rows.
    generalize (match width with
                | Some w => w
                | None => max_len (splitlines (frame_to_text f))
                end) as w.
    generalize (splitlines (frame_to_text f)) as lines. intros lines w.
    generalize 0%nat as row.
    induction lines as [|l rest IH]; intros row; [constructor|].
    cbn [render_rows_from]. constructor; [|apply IH].
    rewrite (render_cells_plain mode _ row (pad w l) Hm 0%nat)
      by (intros; apply Hc).
    apply escapes_chars.
Qed.

(** The frame of the lines [A] and [BCD] without colours, in 256 colours. *)
Lemma uncoloured_frame_is_plain_witness :
  render_frame_with_colors (Frame None (Some ["A"; "BCD"]%string) ∅) None
    Ansi256
  = join (chr1 LF)
      (padded_lines (Frame None (Some ["A"; "BCD"]%string) ∅) None).
Proof.
  apply (uncoloured_frame_is_plain
           (Frame None (Some ["A"; "BCD"]%string) ∅) None Ansi256);
    [discriminate|reflexivity].
Defined.

End PlainRows.

(** ** FrameRenderer: the width of the rows *)

Section RowWidth.

Local Open Scope Z_scope.

Lemma len_append (s1 s2 : string) : len (s1 ++ s2)%string = len s1 + len s2.
Proof.
  induction s1 as [|a s1 IH]; [reflexivity|].
  change (String a s1 ++ s2)%string with (String a (s1 ++ s2)%string).
  rewrite !len_cons, IH. lia.
Qed.

Lemma len_repeat_char (c : ascii) (k : Z) :
  len (repeat_char c k) = Z.max 0 k.
Proof.
  unfold repeat_char.
  assert (forall m : nat,
            len (string_of_list_ascii (List.repeat c m)) = Z.of_nat m) as R.
  { induction m as [|m IH]; [reflexivity|].
    cbn [List.repeat string_of_list_ascii]. rewrite len_cons, IH. lia. }
  rewrite R. lia.
Qed.

(** A padded line is as long as the wider of the width and the line. *)
Lemma len_pad (width : Z) (line : string) :
  len (pad width line) = Z.max width (len line).
Proof.
  unfold pad. pose proof (len_nonneg line).
  destruct (Z.eqb_spec width 0) as [W0|W0],
    (Z.ltb_spec (len line) width) as [L|L]; cbn [negb andb];
    rewrite ?len_append, ?len_repeat_char; lia.
Qed.

Lemma max_len_bound (lines : list string) :
  0 <= max_len lines /\ Forall (fun l => len l <= max_len lines) lines.
Proof.
  induction lines as [|l rest [IH0 IH]]; [split; [reflexivity|constructor]|].
  cbn [max_len fold_right]. fold (max_len rest). split; [lia|].
  constructor; [lia|].
  eapply Forall_impl; [|exact IH]. cbn. intros; lia.
Qed.

(** X11. Rows are aligned: without a canvas width every row of a frame has the
    length of its longest line; with a canvas width [w] every row has at
    least [w] characters, and exactly [w] when no line is longer. *)
Theorem rows_are_aligned (f : frame) :
  Forall (fun l => len l = max_len (splitlines (frame_to_text f)))
    (padded_lines f None)
  /\ forall w,
       Forall (fun l => w <= len l) (padded_lines f (Some w))
       /\ (max_len (splitlines (frame_to_text f)) <= w ->
           Forall (fun l => len l = w) (padded_lines f (Some w))).
Proof.
  unfold padded_lines.
  destruct (max_len_bound (splitlines (frame_to_text f))) as [M0 M].
  set (lines := splitlines (frame_to_text f)) in *.
  set (m := max_len lines) in *. clearbody m lines.
  split; [|intros w; split; [|intros Hw]].
  - induction M as [|l rest Hl _ IH]; constructor; [|exact IH].
    rewrite len_pad. lia.
  - clear M. induction lines as [|l rest IH]; constructor; [|exact IH].
    rewrite len_pad. lia.
  - induction M as [|l rest Hl _ IH]; constructor; [|exact IH].
    rewrite len_pad. lia.
Qed.

End RowWidth.

(** The rows of the lines [A] and [BCD] on a canvas of width 5. *)
Lemma rows_are_aligned_witness :
  Forall (fun l => len l = 5%Z)
    (padded_lines (Frame None (Some ["A"; "BCD"]%string) ∅) (Some 5%Z)).
Proof.
  apply (proj2 (rows_are_aligned (Frame None (Some ["A"; "BCD"]%string) ∅))
           5%Z).
  vm_compute. discriminate.
Defined.

(** ** FrameRenderer: entries of the colour map that name no cell *)

Section UnusedEntries.

Local Open Scope list_scope.

Lemma render_cells_ext_on (mode : color_mode) (cm cm' : gmap (Z * Z) string)
    (row : nat) (line : string) :
  forall col,
    (forall k, (k < String.length line)%nat ->
       resolve cm row (col + k) = resolve cm' row (col + k)) ->
    forall prev,
      render_cells mode cm row col line prev
      = render_cells mode cm' row col line prev.
Proof.
  induction line as [|ch rest IH]; intros col E prev; [reflexivity|].
  cbn [render_cells].
  pose proof (E 0%nat ltac:(cbn; lia)) as E0. rewrite Nat.add_0_r in E0.
  rewrite E0. destruct (emit_cell _ _ _ _) as [pieces prev'].
  rewrite (IH (S col)); [reflexivity|].
  intros k Hk. rewrite Nat.add_succ_l, <- Nat.add_succ_r. apply E. cbn. lia.
Qed.

Lemma render_rows_from_ext_on (mode : color_mode)
    (cm cm' : gmap (Z * Z) string) (width : Z) (lines : list string) :
  forall row,
    (forall i line col,
       map (pad width) lines !! i = Some line ->
       (col < String.length line)%nat ->
       resolve cm (row + i) col = resolve cm' (row + i) col) ->
    render_rows_from mode cm width row lines
    = render_rows_from mode cm' width row lines.
Proof.
  induction lines as [|l rest IH]; intros row E; [reflexivity|].
  cbn [render_rows_from]. f_equal.
  - apply render_cells_ext_on. intros k Hk.
    specialize (E 0%nat (pad width l) k eq_refl Hk).
    rewrite Nat.add_0_r in E. exact E.
  - apply IH. intros i line col Hi Hcol.
    specialize (E (S i) line col Hi Hcol).
    rewrite Nat.add_succ_r in E. exact E.
Qed.

(** X12. An entry of the colour map whose key names no cell of the padded text
    (a row past the last line, a column past the end of its row, a negative
    coordinate) changes nothing in the rendering. *)
Theorem entry_off_the_text_is_ignored (f : frame) (width : option Z)
    (mode : color_mode) (k : Z * Z) (v : string) :
  (forall i line col,
     padded_lines f width !! i = Some line ->
     (col < String.length line)%nat ->
     k <> (Z.of_nat i, Z.of_nat col)) ->
  render_frame_with_colors (set_color k v f) width mode
  = render_frame_with_colors f width mode.
Proof.
  intros Hoff. unfold render_frame_with_colors, render_rows.
  change (frame_to_text (set_color k v f)) with (frame_to_text f).
  cbn [set_color color_map]. do 2 f_equal.
  apply render_rows_from_ext_on. intros i line col Hi Hcol.
  unfold resolve. rewrite lookup_insert_ne; [reflexivity|].
  exact (Hoff i line col Hi Hcol).
Qed.

(** The frame [AB] with a token under the key of row 3. *)
Lemma entry_off_the_text_is_ignored_witness :
  render_frame_with_colors
    (set_color (3, 0)%Z "#ff0000"%string (Frame None (Some ["AB"%string]) ∅))
    None Truecolor
  = render_frame_with_colors (Frame None (Some ["AB"%string]) ∅) None
      Truecolor.
Proof.
  apply (entry_off_the_text_is_ignored
           (Frame None (Some ["AB"%string]) ∅) None Truecolor (3, 0)%Z
           "#ff0000"%string).
  intros [|i] line col H _; [intros [=]|discriminate H].
Defined.

End UnusedEntries.

(** ** [frame_to_text] and the rows of a frame *)

Section FrameText.

Local Open Scope list_scope.

Lemma rstrip_splits (s : string) :
  exists k, s = (rstrip LF s ++ newlines k)%string
            /\ (rstrip LF s = EmptyString -> s = newlines k).
Proof.
  induction s as [|a rest (k & E & Z)]; [exists 0%nat; split; reflexivity|].
  cbn [rstrip]. destruct (rstrip LF rest) as [|b kept] eqn:R.
  - destruct (Ascii.eqb_spec a LF) as [->|Hne].
    + exists (S k). rewrite (Z eq_refl). split; reflexivity.
    + exists k. rewrite (Z eq_refl). split; [reflexivity|discriminate].
  - exists k. split; [|discriminate]. rewrite E at 1. reflexivity.
Qed.

Lemma rstrip_last (s t : string) : rstrip LF s <> (t ++ chr1 LF)%string.
Proof.
  revert t. induction s as [|a rest IH]; intros t.
  - destruct t; discriminate.
  - cbn [rstrip]. destruct (rstrip LF rest) as [|b kept] eqn:R.
    + destruct (Ascii.eqb_spec a LF) as [->|Hne].
      * destruct t; discriminate.
      * destruct t as [|c [|d t]]; cbn; try discriminate.
        intros [= ->]. congruence.
    + destruct t as [|c t]; cbn; [discriminate|].
      intros [= -> Ht]. exact (IH t Ht).
Qed.

(** X13. The text of a frame with a non-empty [contentString] is that string
    without the newlines that end it, whatever [content] holds; the text
    never ends with a newline. *)
Theorem content_string_loses_final_newlines (f : frame) (s : string) :
  contentString f = Some s -> s <> EmptyString ->
  (exists k, s = (frame_to_text f ++ newlines k)%string)
  /\ forall t, frame_to_text f <> (t ++ chr1 LF)%string.
Proof.
  intros Hs Hne. unfold frame_to_text. rewrite Hs.
  destruct s as [|a s']; [congruence|]. split.
  - destruct (rstrip_splits (String a s')) as (k & E & _). exists k. exact E.
  - apply rstrip_last.
Qed.

(** A [contentString] of one line and two final newlines. *)
Lemma content_string_loses_final_newlines_witness :
  exists k,
    ("ab" ++ chr1 LF ++ chr1 LF)%string
    = (frame_to_text
         (Frame (Some ("ab" ++ chr1 LF ++ chr1 LF)%string) (Some []) ∅)
         ++ newlines k)%string.
Proof.
  apply (content_string_loses_final_newlines
           (Frame (Some ("ab" ++ chr1 LF ++ chr1 LF)%string) (Some []) ∅)
           ("ab" ++ chr1 LF ++ chr1 LF)%string);
    [reflexivity|discriminate].
Defined.

Lemma no_linebreak_cons (a : ascii) (l : string) :
  no_linebreak (String a l) = true ->
  is_linebreak a = false /\ no_linebreak l = true.
Proof.
  unfold no_linebreak. cbn. intros [Ha Hl]%andb_prop.
  split; [destruct (is_linebreak a); [discriminate Ha|reflexivity]|exact Hl].
Qed.

Lemma linebreak_LF (a : ascii) : is_linebreak a = false -> Ascii.eqb a LF = false.
Proof.
  intros H. destruct (Ascii.eqb_spec a LF) as [->|]; [discriminate H|reflexivity].
Qed.

Lemma rstrip_no_linebreak (line : string) :
  no_linebreak line = true -> rstrip LF line = line.
Proof.
  induction line as [|a rest IH]; [reflexivity|].
  intros [Ha Hrest]%no_linebreak_cons. cbn [rstrip]. rewrite (IH Hrest).
  destruct rest; [|reflexivity]. rewrite (linebreak_LF a Ha). reflexivity.
Qed.

Lemma splitlines_go_line (l : string) :
  no_linebreak l = true ->
  forall rest cur open,
    splitlines_go (l ++ rest)%string cur open
    = splitlines_go rest (rev (list_ascii_of_string l) ++ cur)
        (match l with EmptyString => open | _ => true end).
Proof.
  induction l as [|a l IH]; intros Hl rest cur open; [reflexivity|].
  apply no_linebreak_cons in Hl as [Ha Hl].
  change (String a l ++ rest)%string with (String a (l ++ rest)%string).
  cbn [splitlines_go]. rewrite Ha, (IH Hl).
  cbn [list_ascii_of_string rev]. rewrite <- app_assoc. cbn [app].
  destruct l; reflexivity.
Qed.

Lemma splitlines_go_LF (rest : string) (cur : list ascii) (open : bool) :
  splitlines_go (String LF rest) cur open
  = string_of_list_ascii (rev cur) :: splitlines_go rest [] false.
Proof. destruct rest; reflexivity. Qed.

Lemma app_nil_r_string (s : string) : (s ++ EmptyString)%string = s.
Proof.
  induction s as [|a s IH]; [reflexivity|].
  change (String a s ++ EmptyString)%string
    with (String a (s ++ EmptyString)%string).
  rewrite IH. reflexivity.
Qed.

Lemma splitlines_join (lines : list string) :
  forallb no_linebreak lines = true ->
  splitlines (join (chr1 LF) lines) = drop_last_empty lines.
Proof.
  unfold splitlines, join.
  induction lines as [|l rest IH]; [reflexivity|].
  cbn [forallb]. intros [Hl Hrest]%andb_prop.
  destruct rest as [|l' rest'].
  - cbn [String.concat drop_last_empty].
    rewrite <- (app_nil_r_string l) at 1.
    rewrite (splitlines_go_line l Hl). cbn [splitlines_go].
    destruct l as [|a l]; [reflexivity|].
    rewrite app_nil_r, rev_involutive, string_of_list_ascii_of_string.
    reflexivity.
  - change (String.concat (chr1 LF) (l :: l' :: rest'))
      with (l ++ String LF (String.concat (chr1 LF) (l' :: rest')))%string.
    rewrite (splitlines_go_line l Hl), splitlines_go_LF, (IH Hrest).
    rewrite app_nil_r, rev_involutive, string_of_list_ascii_of_string.
    reflexivity.
Qed.

(** X14. The rows of a frame given by [content]: when no line holds a line
    break, the renderer splits the text back into these lines, less the
    last one if it is empty; in every mode it renders one row for each. *)
Theorem rows_are_the_content_lines (f : frame) (lines : list string)
    (width : option Z) (mode : color_mode) :
  contentString f = None ->
  content f = Some lines ->
  forallb no_linebreak lines = true ->
  splitlines (frame_to_text f) = drop_last_empty lines
  /\ length (render_rows f width mode) = length (drop_last_empty lines).
Proof.
  intros Hs Hc Hl.
  assert (splitlines (frame_to_text f) = drop_last_empty lines) as E.
  { unfold frame_to_text. rewrite Hs, Hc.
    replace (map (rstrip LF) lines) with lines; [exact (splitlines_join _ Hl)|].
    clear Hc. induction lines as [|l rest IH]; [reflexivity|].
    cbn [forallb] in Hl. apply andb_prop in Hl as [H1 H2].
    cbn [map]. rewrite (rstrip_no_linebreak l H1), <- (IH H2). reflexivity. }
  split; [exact E|]. unfold render_rows. rewrite E.
  generalize (match width with
              | Some w => w
              | None => max_len (drop_last_empty lines)
              end) as w.
  generalize (drop_last_empty lines) as ls. generalize 0%nat as row.
  intros row ls w. revert row.
  induction ls as [|l rest IH]; intros row; [reflexivity|].
  cbn [render_rows_from length]. rewrite IH. reflexivity.
Qed.

(** A frame of the lines [A], the empty line and [B], and a frame whose
    last line is empty. *)
Lemma rows_are_the_content_lines_witness :
  splitlines (frame_to_text (Frame None (Some ["A"; EmptyString; "B"]%string) ∅))
  = ["A"; EmptyString; "B"]%string
  /\ splitlines (frame_to_text (Frame None (Some ["A"; EmptyString]%string) ∅))
     = ["A"%string].
Proof.
  split.
  - apply (rows_are_the_content_lines
             (Frame None (Some ["A"; EmptyString; "B"]%string) ∅)
             ["A"; EmptyString; "B"]%string None Truecolor); reflexivity.
  - apply (rows_are_the_content_lines
             (Frame None (Some ["A"; EmptyString]%string) ∅)
             ["A"; EmptyString]%string None Truecolor); reflexivity.
Defined.

End FrameText.

(** ** PlaybackScheduler: the order of the frames and the terminal modes *)

Section LoopInvariants.

Local Open Scope nat_scope.

Variable cfg : config.
Variable encoded : list string.
Variable signals : nat -> option (phase * signal).

Local Abbreviation n := (frame_count encoded).

Lemma os_writes_write_frame (idx : nat) (tr : list event) :
  os_writes (write_frame cfg encoded idx :: tr)
  = frame_bytes cfg (nth idx encoded EmptyString) :: os_writes tr.
Proof.
  unfold write_frame, frame_bytes. destruct (prefer_flicker cfg); reflexivity.
Qed.

Lemma os_writes_deliver (s : signal) : os_writes (fst (deliver s)) = [].
Proof. destruct s; reflexivity. Qed.

(** Whatever signals arrive, the loop writes the frames in cyclic order
    from where it stands, and with [loop] off never past the last frame. *)
Lemma play_loop_cyclic (fuel : nat) :
  0 < n ->
  forall it, (loop cfg = true \/ it < n) ->
    exists m,
      m <= fuel /\ (loop cfg = false -> it + m <= n)
      /\ os_writes (fst (play_loop cfg encoded signals fuel it (it mod n)))
         = map (fun j => frame_bytes cfg (nth (j mod n) encoded EmptyString))
             (seq it m).
Proof.
  intros Hn. induction fuel as [|fuel IH]; intros it Hgo.
  - exists 0. split; [lia|]. split; [|reflexivity].
    intros L. destruct Hgo; [congruence|lia].
  - destruct (signals it) as [[ph s]|] eqn:Hs.
    + cbn [play_loop]. rewrite Hs.
      pose proof (os_writes_deliver s) as W.
      destruct ph, (deliver s) as [written e]; cbn [fst] in *.
      * exists 0. split; [lia|]. split; [|exact W].
        intros L. destruct Hgo; [congruence|lia].
      * exists 1. split; [lia|]. split.
        -- intros L. destruct Hgo; [congruence|lia].
        -- rewrite os_writes_write_frame, W. reflexivity.
    + destruct (decide (loop cfg = false /\ S it = n)) as [[L Hlast]|Hcont].
      * exists 1. cbn [play_loop]. rewrite Hs, L. fold n.
        assert (it mod n = it) as M by (apply Nat.mod_small; lia).
        rewrite M.
        replace (n <=? S it) with true by (symmetry; apply Nat.leb_le; lia).
        cbn [fst seq map]. rewrite os_writes_write_frame, M.
        split; [lia|]. split; [intros; lia|reflexivity].
      * assert (loop cfg = true \/ S it < n) as Hgo'.
        { destruct (loop cfg) eqn:L; [left; reflexivity|right].
          destruct Hgo; [congruence|]. destruct (decide (S it = n)); [|lia].
          exfalso. apply Hcont. split; [reflexivity|assumption]. }
        rewrite (play_loop_step cfg encoded signals fuel it Hn Hs Hgo').
        destruct (IH (S it) Hgo') as (m & Hm & Hbound & E).
        exists (S m). cbn [fst seq map]. unfold frame_of.
        rewrite os_writes_write_frame, E.
        split; [lia|]. split; [intros L; specialize (Hbound L); lia|].
        reflexivity.
Qed.

(** The loop hands nothing to [sys.stdout.write] but the cursor-show of
    [_term_handler]. *)
Lemma play_loop_stdout (fuel : nat) (s : string) :
  s <> CURSOR_SHOW ->
  forall it idx,
    writes_of s (fst (play_loop cfg encoded signals fuel it idx)) = 0.
Proof.
  intros Hs.
  assert (forall idx tr,
            writes_of s (write_frame cfg encoded idx :: tr) = writes_of s tr)
    as W.
  { intros idx tr. unfold write_frame.
    destruct (prefer_flicker cfg); reflexivity. }
  assert (forall sg, writes_of s (fst (deliver sg)) = 0) as D.
  { intros [|]; [reflexivity|].
    unfold deliver, show_cursor. cbn [fst writes_of].
    destruct (String.eqb_spec CURSOR_SHOW s); [congruence|reflexivity]. }
  induction fuel as [|fuel IH]; intros it idx; [reflexivity|].
  cbn [play_loop].
  destruct (signals it) as [[[|] sg]|].
  - specialize (D sg). destruct (deliver sg). exact D.
  - specialize (D sg). destruct (deliver sg). cbn [fst] in *.
    rewrite W. exact D.
  - destruct (frame_count encoded <=? S idx).
    + destruct (loop cfg).
      * specialize (IH (S it) 0).
        destruct (play_loop cfg encoded signals fuel (S it) 0).
        cbn [fst] in *. rewrite W. exact IH.
      * cbn [fst]. rewrite W. reflexivity.
    + specialize (IH (S it) (S idx)).
      destruct (play_loop cfg encoded signals fuel (S it) (S idx)).
      cbn [fst] in *. rewrite W. exact IH.
Qed.

(** A loop that is still running has written frames only. *)
Lemma play_loop_running (fuel : nat) (s : string) :
  forall it idx,
    snd (play_loop cfg encoded signals fuel it idx) = OutOfFuel ->
    writes_of s (fst (play_loop cfg encoded signals fuel it idx)) = 0.
Proof.
  assert (forall idx tr,
            writes_of s (write_frame cfg encoded idx :: tr) = writes_of s tr)
    as W.
  { intros idx tr. unfold write_frame.
    destruct (prefer_flicker cfg); reflexivity. }
  induction fuel as [|fuel IH]; intros it idx; [reflexivity|].
  cbn [play_loop].
  destruct (signals it) as [[[|] sg]|].
  - destruct (deliver sg). discriminate.
  - destruct (deliver sg). discriminate.
  - destruct (frame_count encoded <=? S idx).
    + destruct (loop cfg); [|discriminate].
      specialize (IH (S it) 0).
      destruct (play_loop cfg encoded signals fuel (S it) 0).
      cbn [fst snd] in *. rewrite W. exact IH.
    + specialize (IH (S it) (S idx)).
      destruct (play_loop cfg encoded signals fuel (S it) (S idx)).
      cbn [fst snd] in *. rewrite W. exact IH.
Qed.

Lemma prefix_app (s t : string) : String.prefix s (s ++ t) = true.
Proof.
  induction s as [|a s IH]; [destruct t; reflexivity|].
  change (String a s ++ t)%string with (String a (s ++ t)).
  cbn [String.prefix]. destruct (ascii_dec a a); [exact IH|congruence].
Qed.

(** A frame write starts with the escape sequence of the write strategy:
    clear-and-home when flicker is preferred, cursor-home else. *)
Lemma frame_bytes_start (payload : string) :
  String.prefix (if prefer_flicker cfg then CLEAR_HOME else HOME)
    (frame_bytes cfg payload) = true.
Proof.
  unfold frame_bytes. destruct (prefer_flicker cfg); apply prefix_app.
Qed.

(** Every [os.write] of the loop is a frame write. *)
Lemma play_loop_os_writes (fuel : nat) :
  forall it idx,
    Forall (fun b => String.prefix
                       (if prefer_flicker cfg then CLEAR_HOME else HOME) b
                     = true)
      (os_writes (fst (play_loop cfg encoded signals fuel it idx))).
Proof.
  induction fuel as [|fuel IH]; intros it idx; [constructor|].
  cbn [play_loop].
  destruct (signals it) as [[[|] sg]|].
  - pose proof (os_writes_deliver sg) as D. destruct (deliver sg).
    cbn [fst] in *. rewrite D. constructor.
  - pose proof (os_writes_deliver sg) as D. destruct (deliver sg).
    cbn [fst] in *. rewrite os_writes_write_frame, D.
    constructor; [apply frame_bytes_start|constructor].
  - destruct (frame_count encoded <=? S idx).
    + destruct (loop cfg).
      * specialize (IH (S it) 0).
        destruct (play_loop cfg encoded signals fuel (S it) 0).
        cbn [fst] in *. rewrite os_writes_write_frame.
        constructor; [apply frame_bytes_start|exact IH].
      * cbn [fst]. rewrite os_writes_write_frame.
        constructor; [apply frame_bytes_start|constructor].
    + specialize (IH (S it) (S idx)).
      destruct (play_loop cfg encoded signals fuel (S it) (S idx)).
      cbn [fst] in *. rewrite os_writes_write_frame.
      constructor; [apply frame_bytes_start|exact IH].
Qed.

End LoopInvariants.

Section SessionInvariants.

Local Open Scope nat_scope.

Variable frames : list frame.
Variable cfg : config.
Variable signals : nat -> option (phase * signal).

Hypothesis some_frames : frames <> [].

(** X15. Whatever signals arrive and however long the session has run, the
    frames written so far are the frames of the list in order, starting
    with the first and starting over after the last; with [loop] off no
    frame is written twice. *)
Theorem frames_cycle_under_any_signals (fuel : nat) :
  exists m,
    m <= fuel /\ (loop cfg = false -> m <= length frames)
    /\ os_writes (fst (play_animation frames cfg signals fuel))
       = map (fun j => frame_bytes cfg
                         (nth (j mod length frames)
                            (encoded_frames cfg frames) EmptyString))
           (seq 0 m).
Proof.
  rewrite (play_animation_session frames cfg signals some_frames).
  unfold play_session.
  rewrite (loop_from_start frames cfg signals).
  destruct (play_loop_cyclic cfg (encoded_frames cfg frames) signals fuel
              (count_positive frames cfg some_frames) 0)
    as (m & Hm & Hb & E).
  { destruct (loop cfg); [left; reflexivity|right].
    exact (count_positive frames cfg some_frames). }
  rewrite frame_count_encoded in *.
  exists m. split; [exact Hm|]. split; [intros L; specialize (Hb L); lia|].
  destruct (play_loop cfg (encoded_frames cfg frames) signals fuel 0
              (0 mod length frames)) as [body r].
  cbn [fst] in E.
  destruct r as [|[|code]|]; cbn [fst];
    rewrite ?os_writes_app, os_writes_setup, E; cbn [app];
    rewrite ?app_nil_r; reflexivity.
Qed.

(** X16. How often each terminal mode is switched: the cursor is hidden once;
    unless flicker is preferred the alternate buffer is entered once and
    [clear_screen] is called once, and every frame write starts with
    cursor-home; when flicker is preferred the buffer is not entered and
    [clear_screen] is not called, and every frame write starts with the
    clear-and-home sequence, so that the screen is cleared with each frame;
    while the session runs neither cursor-show nor the exit from the
    alternate buffer is written; when it has ended the exit from the
    alternate buffer has been written once, also when flicker is preferred
    and the buffer was never entered. *)
Theorem terminal_modes_are_switched_once (fuel : nat) :
  writes_of CURSOR_HIDE (fst (play_animation frames cfg signals fuel)) = 1
  /\ writes_of ALT_ENTER (fst (play_animation frames cfg signals fuel))
     = (if prefer_flicker cfg then 0 else 1)
  /\ writes_of CLEAR_HOME (fst (play_animation frames cfg signals fuel))
     = (if prefer_flicker cfg then 0 else 1)
  /\ Forall (fun b => String.prefix
                        (if prefer_flicker cfg then CLEAR_HOME else HOME) b
                      = true)
       (os_writes (fst (play_animation frames cfg signals fuel)))
  /\ match snd (play_animation frames cfg signals fuel) with
     | Running =>
         writes_of CURSOR_SHOW (fst (play_animation frames cfg signals fuel))
         = 0
         /\ writes_of ALT_EXIT (fst (play_animation frames cfg signals fuel))
            = 0
     | _ =>
         writes_of ALT_EXIT (fst (play_animation frames cfg signals fuel)) = 1
     end.
Proof.
  rewrite (play_animation_session frames cfg signals some_frames).
  unfold play_session.
  pose proof (play_loop_stdout cfg (encoded_frames cfg frames) signals fuel
                CURSOR_HIDE ltac:(discriminate) 0 0) as H1.
  pose proof (play_loop_stdout cfg (encoded_frames cfg frames) signals fuel
                ALT_ENTER ltac:(discriminate) 0 0) as H2.
  pose proof (play_loop_stdout cfg (encoded_frames cfg frames) signals fuel
                CLEAR_HOME ltac:(discriminate) 0 0) as H3.
  pose proof (play_loop_stdout cfg (encoded_frames cfg frames) signals fuel
                ALT_EXIT ltac:(discriminate) 0 0) as H4.
  pose proof (play_loop_running cfg (encoded_frames cfg frames) signals fuel
                CURSOR_SHOW 0 0) as H5.
  pose proof (play_loop_os_writes cfg (encoded_frames cfg frames) signals fuel
                0 0) as H6.
  destruct (play_loop cfg (encoded_frames cfg frames) signals fuel 0 0)
    as [body r].
  cbn [fst snd] in *.
  assert (forall tail, os_writes tail = [] ->
            Forall (fun b => String.prefix
                               (if prefer_flicker cfg then CLEAR_HOME
                                else HOME) b = true)
              (os_writes (setup cfg ++ body ++ tail))) as H7.
  { intros tail E. rewrite !os_writes_app, os_writes_setup, E, app_nil_r.
    exact H6. }
  assert (Forall (fun b => String.prefix
                             (if prefer_flicker cfg then CLEAR_HOME
                              else HOME) b = true)
            (os_writes (setup cfg ++ body))) as H8.
  { rewrite os_writes_app, os_writes_setup. exact H6. }
  unfold setup in *.
  destruct r as [|[|code]|], (prefer_flicker cfg); cbn [fst snd];
    repeat split;
    first [ apply H7; reflexivity
          | exact H8
          | rewrite ?writes_of_app, ?H1, ?H2, ?H3, ?H4, ?(H5 eq_refl);
            reflexivity ].
Qed.

End SessionInvariants.

(** The frames of a looping session of two frames that a termination signal
    ends before the fourth write. *)
Lemma frames_cycle_under_any_signals_witness :
  exists m,
    (m <= 7)%nat
    /\ (loop (Config true None false None true false false) = false ->
        (m <= 2)%nat)
    /\ os_writes
         (fst (play_animation
                 [Frame None (Some ["A"%string]) ∅;
                  Frame None (Some ["B"%string]) ∅]
                 (Config true None false None true false false)
                 (fun j => if (j =? 3)%nat then Some (BeforeWrite, SIGTERM)
                           else None)
                 7))
       = map (fun j => frame_bytes
                         (Config true None false None true false false)
                         (nth (j mod 2)
                            (encoded_frames
                               (Config true None false None true false false)
                               [Frame None (Some ["A"%string]) ∅;
                                Frame None (Some ["B"%string]) ∅])
                            EmptyString))
           (seq 0 m).
Proof.
  apply (frames_cycle_under_any_signals
           [Frame None (Some ["A"%string]) ∅; Frame None (Some ["B"%string]) ∅]
           (Config true None false None true false false)
           (fun j => if (j =? 3)%nat then Some (BeforeWrite, SIGTERM)
                     else None)).
  discriminate.
Defined.

(** The terminal modes of a session in flicker mode that a user interrupt
    ends after two frames: the cursor is hidden once, and both frame writes
    start with the clear-and-home sequence. *)
Lemma terminal_modes_are_switched_once_witness :
  writes_of CURSOR_HIDE
    (fst (play_animation [Frame None (Some ["A"%string]) ∅]
            (Config true None false None true false false)
            (fun j => if (j =? 2)%nat then Some (BeforeWrite, SIGINT)
                      else None) 5)) = 1%nat
  /\ Forall (fun b => String.prefix CLEAR_HOME b = true)
       (os_writes
          (fst (play_animation [Frame None (Some ["A"%string]) ∅]
                  (Config true None false None true false false)
                  (fun j => if (j =? 2)%nat then Some (BeforeWrite, SIGINT)
                            else None) 5)))
  /\ length
       (os_writes
          (fst (play_animation [Frame None (Some ["A"%string]) ∅]
                  (Config true None false None true false false)
                  (fun j => if (j =? 2)%nat then Some (BeforeWrite, SIGINT)
                            else None) 5))) = 2%nat.
Proof.
  split; [|split; [|reflexivity]].
  - apply (terminal_modes_are_switched_once
             [Frame None (Some ["A"%string]) ∅]
             (Config true None false None true false false)
             (fun j => if (j =? 2)%nat then Some (BeforeWrite, SIGINT)
                       else None)).
    discriminate.
  - apply (proj1 (proj2 (proj2 (proj2
             (terminal_modes_are_switched_once
                [Frame None (Some ["A"%string]) ∅]
                (Config true None false None true false false)
                (fun j => if (j =? 2)%nat then Some (BeforeWrite, SIGINT)
                          else None)
                ltac:(discriminate) 5))))).
Defined.

(** ** The keys of the colour map *)

Section ColourKeyFacts.

Local Open Scope list_scope.

Lemma comma_count_cons (a : ascii) (s : string) :
  comma_count (String a s)
  = if Ascii.eqb a "," then S (comma_count s) else comma_count s.
Proof. unfold comma_count. cbn. destruct (Ascii.eqb a ","); reflexivity. Qed.

Lemma comma_count_app (s1 s2 : string) :
  comma_count (s1 ++ s2)%string = (comma_count s1 + comma_count s2)%nat.
Proof.
  induction s1 as [|a s1 IH]; [reflexivity|].
  change (String a s1 ++ s2)%string with (String a (s1 ++ s2)%string).
  rewrite !comma_count_cons, IH. destruct (Ascii.eqb a ","); reflexivity.
Qed.

Lemma string_of_rev_app (s : string) (cur : list ascii) :
  string_of_list_ascii (rev (rev (list_ascii_of_string s) ++ cur))
  = (string_of_list_ascii (rev cur) ++ s)%string.
Proof.
  rewrite rev_app_distr, rev_involutive.
  generalize (rev cur) as pre. intros pre.
  induction pre as [|a pre IH]; cbn.
  - apply string_of_list_ascii_of_string.
  - rewrite IH. reflexivity.
Qed.

(** Up to its first comma, [split] collects the characters. *)
Lemma split_comma_go_piece (s : string) :
  comma_count s = 0%nat ->
  forall cur,
    split_comma_go s cur
    = [string_of_list_ascii (rev (rev (list_ascii_of_string s) ++ cur))]
    /\ forall rest,
         split_comma_go (s ++ String "," rest)%string cur
         = string_of_list_ascii (rev (rev (list_ascii_of_string s) ++ cur))
             :: split_comma_go rest [].
Proof.
  induction s as [|a s IH]; intros Hc cur.
  - split; [reflexivity|]. intros rest. reflexivity.
  - rewrite comma_count_cons in Hc.
    destruct (Ascii.eqb a ",") eqn:E; [discriminate Hc|].
    destruct (IH Hc (a :: cur)) as [I1 I2].
    cbn [list_ascii_of_string rev]. rewrite <- app_assoc. cbn [app].
    split.
    + cbn [split_comma_go]. rewrite E. exact I1.
    + intros rest.
      change (String a s ++ String "," rest)%string
        with (String a (s ++ String "," rest)%string).
      cbn [split_comma_go]. rewrite E. exact (I2 rest).
Qed.

Lemma split_comma_pair (cs rs : string) :
  comma_count cs = 0%nat -> comma_count rs = 0%nat ->
  split_comma (cs ++ String "," rs)%string = [cs; rs].
Proof.
  intros Hc Hr. unfold split_comma.
  rewrite (proj2 (split_comma_go_piece cs Hc [])),
    (proj1 (split_comma_go_piece rs Hr [])).
  rewrite !app_nil_r, !rev_involutive, !string_of_list_ascii_of_string.
  reflexivity.
Qed.

Lemma split_comma_go_length (s : string) :
  forall cur, length (split_comma_go s cur) = S (comma_count s).
Proof.
  induction s as [|a s IH]; intros cur; [reflexivity|].
  cbn [split_comma_go]. rewrite comma_count_cons.
  destruct (Ascii.eqb a ","); cbn [length]; rewrite IH; reflexivity.
Qed.

Lemma split_comma_length (s : string) :
  length (split_comma s) = S (comma_count s).
Proof. apply split_comma_go_length. Qed.

(** [','.join(s.split(','))] is [s]. *)
Lemma join_split_comma_go (s : string) :
  forall cur,
    join "," (split_comma_go s cur)
    = (string_of_list_ascii (rev cur) ++ s)%string.
Proof.
  induction s as [|a s IH]; intros cur.
  - cbn. symmetry. apply app_nil_r_string.
  - cbn [split_comma_go]. destruct (Ascii.eqb_spec a ",") as [->|Hne].
    + unfold join in *. cbn [String.concat].
      specialize (IH []).
      pose proof (split_comma_go_length s []) as Len.
      destruct (split_comma_go s []) as [|x xs]; [discriminate Len|].
      rewrite IH. reflexivity.
    + rewrite (IH (a :: cur)). cbn [rev].
      generalize (rev cur) as pre. intros pre.
      induction pre as [|b pre IHp]; [reflexivity|].
      cbn [app string_of_list_ascii].
      change (String b (string_of_list_ascii (pre ++ [a])) ++ s)%string
        with (String b (string_of_list_ascii (pre ++ [a]) ++ s)%string).
      rewrite IHp. reflexivity.
Qed.

Lemma space_not_comma (a : ascii) :
  is_int_space a = true -> Ascii.eqb a "," = false.
Proof.
  intros H. destruct (Ascii.eqb_spec a ",") as [->|]; [discriminate H|reflexivity].
Qed.

Lemma comma_count_lstrip (s : string) :
  comma_count (lstrip_spaces s) = comma_count s.
Proof.
  induction s as [|a s IH]; [reflexivity|].
  cbn [lstrip_spaces]. destruct (is_int_space a) eqn:E; [|reflexivity].
  rewrite comma_count_cons, (space_not_comma a E). exact IH.
Qed.

Lemma comma_count_rstrip (s : string) :
  comma_count (rstrip_spaces s) = comma_count s.
Proof.
  induction s as [|a s IH]; [reflexivity|].
  cbn [rstrip_spaces]. rewrite comma_count_cons, <- IH.
  destruct (rstrip_spaces s) as [|b kept].
  - destruct (is_int_space a) eqn:E.
    + rewrite (space_not_comma a E). reflexivity.
    + unfold chr1. rewrite comma_count_cons. reflexivity.
  - rewrite (comma_count_cons a). reflexivity.
Qed.

Lemma digits_value_comma_free (s : string) :
  forall acc b v, digits_value s acc b = Some v -> comma_count s = 0%nat.
Proof.
  induction s as [|a s IH]; intros acc b v; [reflexivity|].
  cbn [digits_value]. rewrite comma_count_cons.
  destruct (Ascii.eqb_spec a ",") as [->|Hne]; [discriminate|].
  destruct (digit_val a); [apply IH|].
  destruct (Ascii.eqb a "_" && b); [apply IH|discriminate].
Qed.

(** A text [int] accepts holds no comma. *)
Lemma int10_comma_free (s : string) (v : Z) :
  int10 s = Some v -> comma_count s = 0%nat.
Proof.
  unfold int10. rewrite <- (comma_count_lstrip s).
  rewrite <- (comma_count_rstrip (lstrip_spaces s)).
  destruct (rstrip_spaces (lstrip_spaces s)) as [|c rest]; [reflexivity|].
  rewrite comma_count_cons.
  destruct (Ascii.eqb_spec c "-") as [->|N1];
    [|destruct (Ascii.eqb_spec c "+") as [->|N2]].
  - destruct (4300 <? digit_count rest)%nat; [discriminate|].
    destruct (digits_value rest 0 false) eqn:D; [|discriminate].
    intros _. exact (digits_value_comma_free _ _ _ _ D).
  - destruct (4300 <? digit_count rest)%nat; [discriminate|].
    destruct (digits_value rest 0 false) eqn:D; [|discriminate].
    intros _. exact (digits_value_comma_free _ _ _ _ D).
  - destruct (4300 <? digit_count (String c rest))%nat; [discriminate|].
    destruct (digits_value (String c rest) 0 false) eqn:D; [|discriminate].
    intros _. rewrite <- comma_count_cons.
    exact (digits_value_comma_free _ _ _ _ D).
Qed.

Lemma parse_key_of_parts (col_s row_s : string) (col row : Z) :
  int10 col_s = Some col -> int10 row_s = Some row ->
  parse_key (col_s ++ String "," row_s)%string = Some (row, col).
Proof.
  intros Ec Er. unfold parse_key.
  rewrite (split_comma_pair col_s row_s (int10_comma_free _ _ Ec)
             (int10_comma_free _ _ Er)).
  rewrite Ec, Er. reflexivity.
Qed.

(** X17. A key names a cell exactly when it is two texts that [int] accepts with
    one comma between them, the column first and the row second; any other
    key, one without a comma or with two among them, names none. *)
Theorem key_names_row_and_column (key : string) (row col : Z) :
  parse_key key = Some (row, col)
  <-> exists col_s row_s,
        key = (col_s ++ String "," row_s)%string
        /\ int10 col_s = Some col /\ int10 row_s = Some row.
Proof.
  split.
  - unfold parse_key. intros H.
    pose proof (join_split_comma_go key []) as J.
    fold (split_comma key) in J.
    destruct (split_comma key) as [|col_s [|row_s [|x xs]]];
      try discriminate H.
    destruct (int10 col_s) as [c|] eqn:Ec; [|discriminate H].
    destruct (int10 row_s) as [r|] eqn:Er; [|discriminate H].
    injection H as <- <-. exists col_s, row_s.
    split; [|split; assumption]. cbn in J. symmetry. exact J.
  - intros (col_s & row_s & -> & Ec & Er).
    exact (parse_key_of_parts col_s row_s col row Ec Er).
Qed.

(** The key [ 3,-07 ], blanks and a sign included. *)
Lemma key_names_row_and_column_witness :
  parse_key " 3,-07 " = Some ((-7)%Z, 3%Z).
Proof.
  apply (key_names_row_and_column " 3,-07 " (-7) 3).
  exists " 3"%string, "-07 "%string. repeat split.
Defined.

(** X18. A key names no cell unless it holds exactly one comma. *)
Theorem key_needs_one_comma (key : string) :
  comma_count key <> 1%nat -> parse_key key = None.
Proof.
  intros H. unfold parse_key.
  pose proof (split_comma_length key) as L.
  destruct (split_comma key) as [|a [|b [|c l]]]; try reflexivity.
  cbn in L. congruence.
Qed.

(** The keys [12] and [1,2,3]. *)
Lemma key_needs_one_comma_witness :
  parse_key "12" = None /\ parse_key "1,2,3" = None.
Proof.
  split; apply key_needs_one_comma; vm_compute; congruence.
Defined.

Lemma build_color_map_snoc (items : list (string * string))
    (item : string * string) :
  build_color_map (items ++ [item])
  = match parse_key (fst item) with
    | Some cell => <[cell := snd item]> (build_color_map items)
    | None => build_color_map items
    end.
Proof. unfold build_color_map. rewrite fold_left_app. reflexivity. Qed.

(** X19. The colour of a cell is the value of the last item whose key names
    it; a cell no key names has none. *)
Theorem last_item_of_a_cell_wins (items : list (string * string))
    (cell : Z * Z) :
  build_color_map items !! cell = last_for cell items.
Proof.
  induction items as [|item items IH] using rev_ind; [reflexivity|].
  rewrite build_color_map_snoc. unfold last_for in *.
  rewrite rev_app_distr. cbn [rev app List.find].
  destruct (parse_key (fst item)) as [cell'|] eqn:P.
  - destruct (decide (cell' = cell)) as [->|Hne].
    + rewrite lookup_insert_eq.
      rewrite bool_decide_eq_true_2 by reflexivity. reflexivity.
    + rewrite lookup_insert_ne by exact Hne.
      rewrite bool_decide_eq_false_2 by congruence. exact IH.
  - rewrite bool_decide_eq_false_2 by congruence. exact IH.
Qed.

Lemma digit_is_plain (c : ascii) (k : Z) :
  digit_val c = Some k ->
  is_int_space c = false /\ Ascii.eqb c "-" = false
  /\ Ascii.eqb c "+" = false.
Proof.
  intros H. split; [|split].
  - unfold digit_val in H. unfold is_int_space.
    destruct ((48 <=? ord c)%Z && (ord c <=? 57)%Z) eqn:R; [|discriminate H].
    apply andb_prop in R as [R1 R2].
    apply Z.leb_le in R1, R2.
    repeat (apply orb_false_intro);
      try (apply andb_false_intro2); try apply Z.leb_gt; try apply Z.eqb_neq;
      lia.
  - destruct (Ascii.eqb_spec c "-") as [->|]; [discriminate H|reflexivity].
  - destruct (Ascii.eqb_spec c "+") as [->|]; [discriminate H|reflexivity].
Qed.

(** The text of a decimal numeral starts with a digit and is digits
    throughout. *)
Lemma uint_head (d : Decimal.uint) :
  d <> Decimal.Nil ->
  exists c rest k,
    NilEmpty.string_of_uint d = String c rest /\ digit_val c = Some k.
Proof.
  destruct d; [congruence|..]; intros _; cbn;
    eexists _, _, _; (split; [reflexivity|reflexivity]).
Qed.

Lemma rstrip_spaces_uint (d : Decimal.uint) :
  rstrip_spaces (NilEmpty.string_of_uint d) = NilEmpty.string_of_uint d.
Proof.
  induction d; [reflexivity|..];
    cbn [NilEmpty.string_of_uint rstrip_spaces]; rewrite IHd;
    (destruct (NilEmpty.string_of_uint d); reflexivity).
Qed.

Lemma digits_value_uint_acc (d : Decimal.uint) :
  forall p,
    digits_value (NilEmpty.string_of_uint d) (Z.pos p) true
    = Some (Z.pos (Pos.of_uint_acc d p)).
Proof.
  induction d; intros p; [reflexivity|..];
    cbn [NilEmpty.string_of_uint digits_value Pos.of_uint_acc];
    match goal with
    | |- context [digit_val ?c] =>
        let v := eval vm_compute in (digit_val c) in
        change (digit_val c) with v
    end;
    cbv beta iota;
    match goal with
    | |- digits_value _ ?a _ = Some (Z.pos (Pos.of_uint_acc _ ?q)) =>
        replace a with (Z.pos q) by lia
    end;
    apply IHd.
Qed.

Lemma digits_value_uint (d : Decimal.uint) :
  digits_value (NilEmpty.string_of_uint d) 0 true
  = Some (Z.of_N (Pos.of_uint d)).
Proof.
  induction d; [reflexivity|..];
    cbn [NilEmpty.string_of_uint digits_value Pos.of_uint];
    match goal with
    | |- context [digit_val ?c] =>
        let v := eval vm_compute in (digit_val c) in
        change (digit_val c) with v
    end;
    cbv beta iota;
    [exact IHd|..];
    match goal with
    | |- digits_value _ ?a _ = Some (Z.of_N (N.pos (Pos.of_uint_acc _ ?q))) =>
        change a with (Z.pos q)
    end;
    apply digits_value_uint_acc.
Qed.

(** [int] reads the text of a positive numeral as its value. *)
Lemma int10_uint (p : positive) :
  (digit_count (NilEmpty.string_of_uint (Pos.to_uint p)) <= 4300)%nat ->
  digits_value (NilEmpty.string_of_uint (Pos.to_uint p)) 0 false
  = Some (Z.pos p)
  /\ int10 (NilEmpty.string_of_uint (Pos.to_uint p)) = Some (Z.pos p).
Proof.
  intros Hlen.
  pose proof (digits_value_uint (Pos.to_uint p)) as V.
  rewrite DecimalPos.Unsigned.of_to in V. cbn [Z.of_N] in V.
  pose proof (rstrip_spaces_uint (Pos.to_uint p)) as R.
  destruct (uint_head (Pos.to_uint p) (DecimalPos.Unsigned.to_uint_nonnil p))
    as (c & rest & k & E & Hk).
  rewrite E in *.
  destruct (digit_is_plain c k Hk) as (S1 & S2 & S3).
  assert (digits_value (String c rest) 0 false = Some (Z.pos p)) as V'.
  { cbn [digits_value] in *. rewrite Hk in *. exact V. }
  split; [exact V'|].
  unfold int10. cbn [lstrip_spaces]. rewrite S1, R, S2, S3.
  replace (4300 <? digit_count (String c rest))%nat with false
    by (symmetry; apply Nat.ltb_ge; exact Hlen).
  rewrite V'. reflexivity.
Qed.

Lemma nilzero_uint (p : positive) :
  NilZero.string_of_uint (Pos.to_uint p)
  = NilEmpty.string_of_uint (Pos.to_uint p).
Proof.
  pose proof (DecimalPos.Unsigned.to_uint_nonnil p) as NN.
  unfold NilZero.string_of_uint.
  destruct (Pos.to_uint p); [congruence|reflexivity..].
Qed.

Lemma int10_minus (body : string) (v : Z) :
  rstrip_spaces body = body -> body <> EmptyString ->
  digits_value body 0 false = Some v ->
  (digit_count body <= 4300)%nat ->
  int10 (String "-" body) = Some (- v)%Z.
Proof.
  intros R Hne V Hlen. unfold int10. cbn [lstrip_spaces].
  change (is_int_space "-") with false. cbv beta iota.
  cbn [rstrip_spaces]. rewrite R.
  destruct body as [|c rest]; [congruence|].
  change (Ascii.eqb "-" "-") with true. cbv beta iota.
  replace (4300 <? digit_count (String c rest))%nat with false
    by (symmetry; apply Nat.ltb_ge; exact Hlen).
  rewrite V. reflexivity.
Qed.

(** What [str] writes for an int, [int] reads back, up to 4300 digits. *)
Lemma int10_str_of_int (z : Z) :
  (digit_count (str_of_int z) <= 4300)%nat -> int10 (str_of_int z) = Some z.
Proof.
  unfold str_of_int. destruct z as [|p|p]; [reflexivity|..];
    cbn [Z.to_int NilZero.string_of_int]; rewrite nilzero_uint; intros Hlen.
  - exact (proj2 (int10_uint p Hlen)).
  - change (digit_count (String "-" (NilEmpty.string_of_uint (Pos.to_uint p))))
      with (digit_count (NilEmpty.string_of_uint (Pos.to_uint p))) in Hlen.
    change (Z.neg p) with (- Z.pos p)%Z.
    apply int10_minus;
      [apply rstrip_spaces_uint| |exact (proj1 (int10_uint p Hlen))|exact Hlen].
    destruct (uint_head (Pos.to_uint p) (DecimalPos.Unsigned.to_uint_nonnil p))
      as (c & rest & k & E & _).
    rewrite E. discriminate.
Qed.

(** X20. A key written as the numerals of a column and a row, in this order
    and with a comma between them, names the cell at that row and column,
    and an item under this key colours that cell. *)
Theorem numeral_key_colours_its_cell (col row : Z) (colour : string) :
  (digit_count (str_of_int col) <= 4300)%nat ->
  (digit_count (str_of_int row) <= 4300)%nat ->
  parse_key (str_of_int col ++ String "," (str_of_int row))%string
  = Some (row, col)
  /\ build_color_map
       [((str_of_int col ++ String "," (str_of_int row))%string, colour)]
     !! (row, col) = Some colour.
Proof.
  intros Hc Hr.
  pose proof (parse_key_of_parts _ _ col row (int10_str_of_int col Hc)
                (int10_str_of_int row Hr)) as P.
  split; [exact P|].
  unfold build_color_map. cbn [fold_left fst snd]. rewrite P.
  apply lookup_insert_eq.
Qed.

(** The key of column 12, row 7. *)
Lemma numeral_key_colours_its_cell_witness :
  parse_key (str_of_int 12 ++ String "," (str_of_int 7))%string
  = Some (7%Z, 12%Z).
Proof.
  apply (numeral_key_colours_its_cell 12 7 "#fff"); vm_compute; lia.
Defined.

End ColourKeyFacts.
